(** * Polaris: the verification endpoint and its client flow

    A shallow embedding of the three source units of the repository:
    the [POST] handler of [/api/verify], and, from the single-file React
    component, [bytesToHex], [computeSHA256], [mockVerify], [handleFiles]
    and [uploadAndVerify].

    - bytes are [list byte]; 32-bit words of the digest are [Z] with the
      wrap-around written out;
    - JavaScript numbers are IEEE 754 binary64 values, taken from the
      Standard Library's executable specification [SpecFloat];
    - [Date.now()] and [Math.random()] are reads of an explicit [World],
      threaded through a state monad. *)

From Stdlib Require Import ZArith List String Ascii Bool Lia.
From Stdlib Require Import Init.Byte.
Import ListNotations.
Local Open Scope Z_scope.

(** ** SHA-256 (FIPS 180-4)

    Node's [crypto.createHash("sha256")] and the browser's
    [crypto.subtle.digest("SHA-256", _)] are platform functions; both
    compute the function below. *)
Module SHA256.

Definition w32 (x : Z) : Z := x mod 2 ^ 32.

Definition add32 (x y : Z) : Z := w32 (x + y).

Definition rotr (n x : Z) : Z :=
  Z.lor (Z.shiftr x n) (w32 (Z.shiftl x (32 - n))).

Definition not32 (x : Z) : Z := Z.lxor x (2 ^ 32 - 1).

Definition Ch (x y z : Z) : Z := Z.lxor (Z.land x y) (Z.land (not32 x) z).

Definition Maj (x y z : Z) : Z :=
  Z.lxor (Z.lxor (Z.land x y) (Z.land x z)) (Z.land y z).

Definition bsig0 (x : Z) : Z := Z.lxor (Z.lxor (rotr 2 x) (rotr 13 x)) (rotr 22 x).
Definition bsig1 (x : Z) : Z := Z.lxor (Z.lxor (rotr 6 x) (rotr 11 x)) (rotr 25 x).
Definition ssig0 (x : Z) : Z := Z.lxor (Z.lxor (rotr 7 x) (rotr 18 x)) (Z.shiftr x 3).
Definition ssig1 (x : Z) : Z := Z.lxor (Z.lxor (rotr 17 x) (rotr 19 x)) (Z.shiftr x 10).

(** Section 4.2.2: the round constants are the first thirty-two bits of
    the fractional parts of the cube roots of the first sixty-four
    primes; section 5.3.3: the initial hash value is the same of the
    square roots of the first eight. *)
Definition primes : list Z :=
  [2; 3; 5; 7; 11; 13; 17; 19; 23; 29; 31; 37; 41; 43; 47; 53; 59; 61; 67; 71; 73; 79;
   83; 89; 97; 101; 103; 107; 109; 113; 127; 131; 137; 139; 149; 151; 157; 163; 167;
   173; 179; 181; 191; 193; 197; 199; 211; 223; 227; 229; 233; 239; 241; 251; 257;
   263; 269; 271; 277; 281; 283; 293; 307; 311].

(** The integer cube root, found bit by bit from bit [k - 1] down. *)
Fixpoint cube_root_bits (k : nat) (n x : Z) : Z :=
  match k with
  | O => x
  | S j =>
      let y := x + 2 ^ Z.of_nat j in
      cube_root_bits j n (if y * y * y <=? n then y else x)
  end.

Definition fraction_of_cube_root (p : Z) : Z := w32 (cube_root_bits 40 (p * 2 ^ 96) 0).

Definition fraction_of_square_root (p : Z) : Z := w32 (Z.sqrt (p * 2 ^ 64)).

Definition K : list Z := Eval vm_compute in map fraction_of_cube_root primes.

(** The eight working variables, and the chaining value, of one block. *)
Record regs := Regs { ra : Z; rb : Z; rc : Z; rd : Z; re : Z; rf : Z; rg : Z; rh : Z }.

Definition H0 : regs :=
  Eval vm_compute in
    match map fraction_of_square_root (firstn 8 primes) with
    | [a; b; c; d; e; f; g; h] => Regs a b c d e f g h
    | _ => Regs 0 0 0 0 0 0 0 0
    end.

Definition byteZ (b : byte) : Z := Z.of_N (Byte.to_N b).

Definition Zbyte (z : Z) : byte :=
  match Byte.of_N (Z.to_N (z mod 256)) with
  | Some b => b
  | None => x00
  end.

(** Big-endian bytes of the low [8 * n] bits of [z]. *)
Fixpoint be_bytes (n : nat) (z : Z) : list byte :=
  match n with
  | O => []
  | S k => Zbyte (Z.shiftr z (8 * Z.of_nat k)) :: be_bytes k z
  end.

(** Section 5.1.1: a 1 bit, zero bits up to 56 mod 64 bytes, and the
    length in bits as a 64-bit big-endian integer. *)
Definition pad (msg : list byte) : list byte :=
  let len := Z.of_nat (List.length msg) in
  msg ++ x80 :: repeat x00 (Z.to_nat ((55 - len) mod 64)) ++ be_bytes 8 (8 * len).

Fixpoint words (bs : list byte) : list Z :=
  match bs with
  | b0 :: b1 :: b2 :: b3 :: r =>
      (byteZ b0 * 2 ^ 24 + byteZ b1 * 2 ^ 16 + byteZ b2 * 2 ^ 8 + byteZ b3) :: words r
  | _ => []
  end.

Fixpoint blocks (fuel : nat) (bs : list byte) : list (list Z) :=
  match fuel, bs with
  | S k, _ :: _ => words (firstn 64 bs) :: blocks k (skipn 64 bs)
  | _, _ => []
  end.

(** The message schedule, most recent word first: from [W(t-1) ... W(t-16)]
    the next word is
    [ssig1 W(t-2) + W(t-7) + ssig0 W(t-15) + W(t-16)]. *)
Fixpoint schedule (n : nat) (rev_w : list Z) : list Z :=
  match n with
  | O => rev_w
  | S k =>
      let wt := add32 (add32 (ssig1 (nth 1 rev_w 0)) (nth 6 rev_w 0))
                      (add32 (ssig0 (nth 14 rev_w 0)) (nth 15 rev_w 0)) in
      schedule k (wt :: rev_w)
  end.

Definition round (r : regs) (kw : Z * Z) : regs :=
  let (k, w) := kw in
  let t1 := add32 (add32 (add32 (rh r) (bsig1 (re r))) (Ch (re r) (rf r) (rg r)))
                  (add32 k w) in
  let t2 := add32 (bsig0 (ra r)) (Maj (ra r) (rb r) (rc r)) in
  Regs (add32 t1 t2) (ra r) (rb r) (rc r) (add32 (rd r) t1) (re r) (rf r) (rg r).

Definition compress (h : regs) (block : list Z) : regs :=
  let w := rev (schedule 48 (rev block)) in
  let r := fold_left round (combine K w) h in
  Regs (add32 (ra h) (ra r)) (add32 (rb h) (rb r)) (add32 (rc h) (rc r))
       (add32 (rd h) (rd r)) (add32 (re h) (re r)) (add32 (rf h) (rf r))
       (add32 (rg h) (rg r)) (add32 (rh h) (rh r)).

Definition output (r : regs) : list byte :=
  be_bytes 4 (ra r) ++ be_bytes 4 (rb r) ++ be_bytes 4 (rc r) ++ be_bytes 4 (rd r) ++
  be_bytes 4 (re r) ++ be_bytes 4 (rf r) ++ be_bytes 4 (rg r) ++ be_bytes 4 (rh r).

Definition sha256 (msg : list byte) : list byte :=
  let p := pad msg in
  output (fold_left compress (blocks (List.length p) p) H0).

End SHA256.

(** ** Hexadecimal text *)

Local Open Scope string_scope.

Definition hex_digit (n : Z) : ascii :=
  match n with
  | 0 => "0" | 1 => "1" | 2 => "2" | 3 => "3" | 4 => "4" | 5 => "5" | 6 => "6"
  | 7 => "7" | 8 => "8" | 9 => "9" | 10 => "a" | 11 => "b" | 12 => "c"
  | 13 => "d" | 14 => "e" | _ => "f"
  end%char.

(** [x.toString(16)] for a non-negative integer [x]: the digits of [x] in
    base sixteen, most significant first, no padding. *)
Fixpoint toString16_pos (p : positive) (acc : string) : string :=
  match p with
  | xH => String (hex_digit 1) acc
  | xO xH => String (hex_digit 2) acc
  | xI xH => String (hex_digit 3) acc
  | xO (xO xH) => String (hex_digit 4) acc
  | xI (xO xH) => String (hex_digit 5) acc
  | xO (xI xH) => String (hex_digit 6) acc
  | xI (xI xH) => String (hex_digit 7) acc
  | xO (xO (xO xH)) => String (hex_digit 8) acc
  | xI (xO (xO xH)) => String (hex_digit 9) acc
  | xO (xI (xO xH)) => String (hex_digit 10) acc
  | xI (xI (xO xH)) => String (hex_digit 11) acc
  | xO (xO (xI xH)) => String (hex_digit 12) acc
  | xI (xO (xI xH)) => String (hex_digit 13) acc
  | xO (xI (xI xH)) => String (hex_digit 14) acc
  | xI (xI (xI xH)) => String (hex_digit 15) acc
  | xO (xO (xO (xO q))) => toString16_pos q (String (hex_digit 0) acc)
  | xI (xO (xO (xO q))) => toString16_pos q (String (hex_digit 1) acc)
  | xO (xI (xO (xO q))) => toString16_pos q (String (hex_digit 2) acc)
  | xI (xI (xO (xO q))) => toString16_pos q (String (hex_digit 3) acc)
  | xO (xO (xI (xO q))) => toString16_pos q (String (hex_digit 4) acc)
  | xI (xO (xI (xO q))) => toString16_pos q (String (hex_digit 5) acc)
  | xO (xI (xI (xO q))) => toString16_pos q (String (hex_digit 6) acc)
  | xI (xI (xI (xO q))) => toString16_pos q (String (hex_digit 7) acc)
  | xO (xO (xO (xI q))) => toString16_pos q (String (hex_digit 8) acc)
  | xI (xO (xO (xI q))) => toString16_pos q (String (hex_digit 9) acc)
  | xO (xI (xO (xI q))) => toString16_pos q (String (hex_digit 10) acc)
  | xI (xI (xO (xI q))) => toString16_pos q (String (hex_digit 11) acc)
  | xO (xO (xI (xI q))) => toString16_pos q (String (hex_digit 12) acc)
  | xI (xO (xI (xI q))) => toString16_pos q (String (hex_digit 13) acc)
  | xO (xI (xI (xI q))) => toString16_pos q (String (hex_digit 14) acc)
  | xI (xI (xI (xI q))) => toString16_pos q (String (hex_digit 15) acc)
  end.

Definition toString16 (x : Z) : string :=
  match x with
  | Zpos p => toString16_pos p ""
  | _ => "0"
  end.

(** [s.slice(-2)]: the last two characters of [s] (all of [s] when it is
    shorter). *)
Definition slice_last2 (s : string) : string :=
  let n := String.length s in
  substring (n - 2) 2 s.

(** [bytesToHex]: each byte [x] becomes [("00" + x.toString(16)).slice(-2)],
    and the pieces are joined with the empty separator. *)
Fixpoint bytesToHex (buffer : list byte) : string :=
  match buffer with
  | [] => ""
  | x :: rest => slice_last2 ("00" ++ toString16 (SHA256.byteZ x)) ++ bytesToHex rest
  end.

(** Node's [digest("hex")]: two lowercase hexadecimal digits per byte,
    high nibble first. *)
Fixpoint digest_hex (bs : list byte) : string :=
  match bs with
  | [] => ""
  | b :: rest =>
      String (hex_digit (SHA256.byteZ b / 16))
        (String (hex_digit (SHA256.byteZ b mod 16)) (digest_hex rest))
  end.

Definition bytes_of_string (s : string) : list byte := list_byte_of_string s.

(** ** JavaScript numbers

    A Number is an IEEE 754 binary64 value; the arithmetic is the Standard
    Library's executable specification of it ([SpecFloat], precision 53,
    exponent bound 1024, round to nearest even). *)
From Stdlib Require Import Floats.SpecFloat.

Module JSNumber.

Local Open Scope Z_scope.

Definition number := spec_float.

Definition prec : Z := 53.
Definition emax : Z := 1024.

Definition add : number -> number -> number := SFadd prec emax.
Definition sub : number -> number -> number := SFsub prec emax.
Definition mul : number -> number -> number := SFmul prec emax.
Definition div : number -> number -> number := SFdiv prec emax.

(** [a > b], [a <= b] and [a < b] *)
Definition gt (a b : number) : bool := SFltb b a.
Definition leq (a b : number) : bool := SFleb a b.
Definition less (a b : number) : bool := SFltb a b.

(** The Number of an integer. *)
Definition of_Z (z : Z) : number := binary_normalize prec emax z 0 false.

(** A decimal literal [n / 10^k] denotes the binary64 value nearest to
    it, which is what the correctly rounded quotient of the two integers
    is. *)
Definition decimal (n : Z) (k : nat) : number := div (of_Z n) (of_Z (10 ^ Z.of_nat k)).

Definition lit_0_6 : number := Eval vm_compute in decimal 6 1.
Definition lit_0_35 : number := Eval vm_compute in decimal 35 2.
Definition lit_0_8 : number := Eval vm_compute in decimal 8 1.
Definition lit_0_65 : number := Eval vm_compute in decimal 65 2.
Definition lit_0_5 : number := Eval vm_compute in decimal 5 1.
Definition lit_0_4 : number := Eval vm_compute in decimal 4 1.
Definition lit_0_95 : number := Eval vm_compute in decimal 95 2.
Definition lit_0 : number := Eval vm_compute in of_Z 0.
Definition lit_1 : number := Eval vm_compute in of_Z 1.
Definition lit_1000000 : number := Eval vm_compute in of_Z 1000000.

(** The text produced by [x.toFixed(2)]: a sign and a count of
    hundredths, or, for NaN, the infinities and magnitudes of at least
    [1e21], the text of [x] itself. *)
Inductive fixed2 :=
| Hundredths (negative : bool) (n : Z)
| AsNumber (x : number).

(** The integer [n] for which [n / 100 - m * 2^e] is as close to zero as
    possible, the larger one when there are two. *)
Definition nearest_hundredths (m : positive) (e : Z) : Z :=
  match e with
  | Zneg p => (200 * Zpos m + 2 ^ Zpos p) / 2 ^ (Zpos p + 1)
  | _ => 100 * Zpos m * 2 ^ e
  end.

(** [10^21 <= m * 2^e] *)
Definition at_least_1e21 (m : positive) (e : Z) : bool :=
  match e with
  | Zneg p => 10 ^ 21 * 2 ^ Zpos p <=? Zpos m
  | _ => 10 ^ 21 <=? Zpos m * 2 ^ e
  end.

Definition toFixed2 (x : number) : fixed2 :=
  match x with
  | S754_zero _ => Hundredths false 0
  | S754_finite s m e =>
      if at_least_1e21 m e then AsNumber x
      else Hundredths s (nearest_hundredths m e)
  | _ => AsNumber x
  end.

(** [Number(text)] on the texts above. *)
Definition Number (t : fixed2) : number :=
  match t with
  | AsNumber x => x
  | Hundredths s 0 => S754_zero s
  | Hundredths s n => div (of_Z (if s then - n else n)) (of_Z 100)
  end.

(** [Math.floor(x)] of a finite [x], as an integer. *)
Definition floor (x : number) : option Z :=
  match x with
  | S754_zero _ => Some 0
  | S754_finite s m e =>
      let q := match e with
               | Zneg p => if s then - ((Zpos m + 2 ^ Zpos p - 1) / 2 ^ Zpos p)
                           else Zpos m / 2 ^ Zpos p
               | _ => (if s then -1 else 1) * Zpos m * 2 ^ e
               end in
      Some q
  | _ => None
  end.

End JSNumber.

Definition number : Type := JSNumber.number.

(** [String(z)] for an integer-valued Number [z] below [1e21] in
    magnitude: its decimal digits, with a minus sign when negative. *)
From Stdlib Require Import DecimalString DecimalZ.

Definition Number_toString (z : Z) : string :=
  NilEmpty.string_of_int (Z.to_int z).

(** ** The environment: the clock and the random number generator *)

From ExtLib Require Import Structures.Monad Structures.MonadState Data.Monads.StateMonad.
Import MonadNotation.
Local Open Scope monad_scope.

(** [clock] is what [Date.now()] reads (milliseconds since the epoch);
    [entropy i] is the value of the [i]-th call of [Math.random()], and
    [draws] counts the calls made so far. *)
Record World := mkWorld { clock : Z; entropy : nat -> number; draws : nat }.

Definition Date_now : state World Z :=
  w <- get ;; ret (clock w).

Definition Math_random : state World number :=
  w <- get ;;
  put (mkWorld (clock w) (entropy w) (S (draws w))) ;;
  ret (entropy w (draws w)).

(** [Math.random()] returns a Number in [0, 1). *)
Definition unit_interval (r : number) : bool :=
  valid_binary JSNumber.prec JSNumber.emax r
  && JSNumber.leq JSNumber.lit_0 r && JSNumber.less r JSNumber.lit_1.

Definition fair (w : World) : Prop := forall i, unit_interval (entropy w i) = true.

(** ** Data model *)

Record File := mkFile { name : string; type : string; bytes : list byte }.

(** The multipart form of a request: [formData.get("file")] and
    [formData.get("hash")], each [null] when the field is absent. *)
Record FormData := mkForm { fd_file : option File; fd_hash : option string }.

Record Exif := mkExif { camera : option string; hasExif : bool }.

Record VerifyResult := mkResult {
  status : string;
  polarisId : string;
  authenticityScore : number;
  aiProbability : number;
  exif : Exif;
  hash : option string;
  message : string
}.

Inductive Json :=
| ErrorJson (status message : string)
| ResultJson (r : VerifyResult).

Record NextResponse := mkResponse { body : Json; http_status : Z }.

(** [NextResponse.json(body, { status })]; the status is 200 when no
    init is given. *)
Definition NextResponse_json (b : Json) (init : option Z) : NextResponse :=
  mkResponse b (match init with Some c => c | None => 200%Z end).

(** Truthiness of a [string | null]: [null] and the empty string are falsy. *)
Definition truthy (s : option string) : bool :=
  match s with
  | Some EmptyString => false
  | Some _ => true
  | None => false
  end.

(** [a !== b] for [a : string | null] and a string [b]. *)
Definition strict_neq (a : option string) (b : string) : bool :=
  match a with
  | Some x => negb (String.eqb x b)
  | None => true
  end.

(** [a || b] for [a : string | null] and a string [b]. *)
Definition or_else (a : option string) (b : string) : string :=
  match a with
  | Some x => if truthy a then x else b
  | None => b
  end.

(** ** The mock scoring shared by [POST] and [mockVerify] *)

(** [0.6 + Math.random() * 0.35] *)
Definition randomScore_of (r : number) : number :=
  JSNumber.add JSNumber.lit_0_6 (JSNumber.mul r JSNumber.lit_0_35).

(** [1 - randomScore] *)
Definition aiProb_of (randomScore : number) : number :=
  JSNumber.sub JSNumber.lit_1 randomScore.

(** [randomScore > 0.8 ? "Likely Authentic"
     : randomScore > 0.65 ? "Uncertain" : "Likely AI-generated"] *)
Definition message_of (randomScore : number) : string :=
  if JSNumber.gt randomScore JSNumber.lit_0_8 then "Likely Authentic"
  else if JSNumber.gt randomScore JSNumber.lit_0_65 then "Uncertain"
  else "Likely AI-generated".

(** [Number(x.toFixed(2))] *)
Definition round2 (x : number) : number := JSNumber.Number (JSNumber.toFixed2 x).

(** ** The endpoint: [POST /api/verify] *)

Definition serverHash_of (buffer : list byte) : string :=
  digest_hex (SHA256.sha256 buffer).

Definition POST (request : FormData) : state World NextResponse :=
  let clientHash := fd_hash request in
  match fd_file request with
  | None =>
      ret (NextResponse_json (ErrorJson "error" "No file uploaded") (Some 400%Z))
  | Some file =>
      let buffer := bytes file in
      let serverHash := serverHash_of buffer in
      if truthy clientHash && strict_neq clientHash serverHash then
        ret (NextResponse_json
               (ErrorJson "error" "Hash mismatch - file may be tampered") (Some 400%Z))
      else
        r <- Math_random ;;
        let randomScore := randomScore_of r in
        let aiProb := aiProb_of randomScore in
        let message := message_of randomScore in
        now <- Date_now ;;
        r' <- Math_random ;;
        let result :=
          mkResult "ok"
                   ("PLS-" ++ Number_toString now)
                   (round2 randomScore)
                   (round2 aiProb)
                   (mkExif None (JSNumber.gt r' JSNumber.lit_0_5))
                   (Some (or_else clientHash serverHash))
                   message in
        ret (NextResponse_json (ResultJson result) None)
  end.

(** ** The client: the React component *)

(** [computeSHA256]: the digest of the file's bytes, through [bytesToHex]. *)
Definition computeSHA256 (file : File) : string :=
  bytesToHex (SHA256.sha256 (bytes file)).

(** [s.split(".").pop()]: what follows the last dot, all of [s] when it
    has none. *)
Fixpoint after_last_dot (s : string) (current : string) : string :=
  match s with
  | EmptyString => current
  | String c rest =>
      if Ascii.eqb c "."%char then after_last_dot rest rest
      else after_last_dot rest current
  end.

Definition lower_ascii (c : ascii) : ascii :=
  let n := nat_of_ascii c in
  if (Nat.leb 65 n && Nat.leb n 90)%bool then ascii_of_nat (n + 32) else c.

(** [toLowerCase()], on the ASCII letters. *)
Fixpoint toLowerCase (s : string) : string :=
  match s with
  | EmptyString => EmptyString
  | String c rest => String (lower_ascii c) (toLowerCase rest)
  end.

(** ["PLS-MOCK-" + Math.floor(x)] *)
Definition mock_id (x : number) : string :=
  "PLS-MOCK-" ++ match JSNumber.floor x with
                 | Some z => Number_toString z
                 | None => match x with
                           | S754_infinity false => "Infinity"
                           | S754_infinity true => "-Infinity"
                           | _ => "NaN"
                           end
                 end.

(** [mockVerify(file, hash)]; the 900 ms timer only delays the result. *)
Definition mockVerify (file : File) (hash : option string) : state World VerifyResult :=
  let ext := toLowerCase (after_last_dot (name file) (name file)) in
  let isImage := existsb (String.eqb ext) ["jpg"; "jpeg"; "png"; "webp"] in
  r <- Math_random ;;
  let randomScore := randomScore_of r in
  let aiProb := aiProb_of randomScore in
  let message := message_of randomScore in
  r_id <- Math_random ;;
  exif <- (if isImage
           then r_exif <- Math_random ;;
                ret (mkExif (Some "MockCam 1.0") (JSNumber.gt r_exif JSNumber.lit_0_4))
           else ret (mkExif None false)) ;;
  ret (mkResult "ok"
                (mock_id (JSNumber.mul r_id JSNumber.lit_1000000))
                (round2 randomScore)
                (round2 aiProb)
                exif
                hash
                message).

(** The component's state; the preview URL is represented by the file it
    was created for. *)
Record ClientState := mkClient {
  st_file : option File;
  st_previewUrl : option File;
  st_hash : option string;
  st_loading : bool;
  st_result : option Json;
  st_error : option string
}.

Definition initial : ClientState := mkClient None None None false None None.

Definition startsWith (prefix s : string) : bool := String.prefix prefix s.

(** [handleFiles(files)] *)
Definition handleFiles (files : list File) (st : ClientState) : ClientState :=
  match files with
  | [] => mkClient (st_file st) (st_previewUrl st) (st_hash st) (st_loading st) None None
  | f :: _ =>
      let preview :=
        if (startsWith "image/" (type f) || startsWith "video/" (type f))%bool
        then Some f else None in
      mkClient (Some f) preview (Some (computeSHA256 f)) false None None
  end.

(** What lies between the browser and the endpoint: no route at all, or a
    route that delivers a form, possibly altered on the way. *)
Inductive Network :=
| Unreachable
| Route (transit : FormData -> FormData).

(** The outcome of [fetch("/api/verify", { method: "POST", body: form })]:
    the promise rejects, or resolves to the endpoint's response. *)
Inductive Fetched :=
| Rejects
| Resolves (resp : NextResponse).

Definition fetch (net : Network) (form : FormData) : state World Fetched :=
  match net with
  | Unreachable => ret Rejects
  | Route transit => resp <- POST (transit form) ;; ret (Resolves resp)
  end.

(** [resp.ok] *)
Definition ok (resp : NextResponse) : bool :=
  ((200 <=? http_status resp) && (http_status resp <=? 299))%Z.

(** [uploadAndVerify()] *)
Definition uploadAndVerify (net : Network) (st : ClientState) : state World ClientState :=
  match st_file st with
  | None =>
      ret (mkClient None (st_previewUrl st) (st_hash st) (st_loading st) None
                    (Some "No file selected"))
  | Some file =>
      let hash := st_hash st in
      let form := mkForm (Some file) (if truthy hash then hash else None) in
      let finish (json : Json) :=
        mkClient (Some file) (st_previewUrl st) hash false (Some json) None in
      let fallback :=
        mock <- mockVerify file hash ;; ret (finish (ResultJson mock)) in
      fetched <- fetch net form ;;
      match fetched with
      | Resolves resp =>
          if ok resp then ret (finish (body resp)) else fallback
      | Rejects => fallback
      end
  end.

(** ** Named responses and intermediate values of [POST] *)

Definition no_file_response : NextResponse :=
  NextResponse_json (ErrorJson "error" "No file uploaded") (Some 400%Z).

Definition mismatch_response : NextResponse :=
  NextResponse_json (ErrorJson "error" "Hash mismatch - file may be tampered") (Some 400%Z).

(** The integrity gate of [POST]: [clientHash && clientHash !== serverHash]. *)
Definition gate_rejects (clientHash : option string) (serverHash : string) : bool :=
  truthy clientHash && strict_neq clientHash serverHash.

(** The body built on the success path from the two random draws and the
    clock. *)
Definition success_result (file : File) (clientHash : option string)
    (r r' : number) (now : Z) : VerifyResult :=
  mkResult "ok"
           ("PLS-" ++ Number_toString now)
           (round2 (randomScore_of r))
           (round2 (aiProb_of (randomScore_of r)))
           (mkExif None (JSNumber.gt r' JSNumber.lit_0_5))
           (Some (or_else clientHash (serverHash_of (bytes file))))
           (message_of (randomScore_of r)).

Definition tick (n : nat) (w : World) : World :=
  mkWorld (clock w) (entropy w) (n + draws w).

Definition is_lower_hex (c : ascii) : bool :=
  let n := nat_of_ascii c in
  ((Nat.leb 48 n && Nat.leb n 57) || (Nat.leb 97 n && Nat.leb n 102))%bool.

Fixpoint all_chars (p : ascii -> bool) (s : string) : bool :=
  match s with
  | EmptyString => true
  | String c rest => p c && all_chars p rest
  end.


(** ** Sample inputs *)

(** The file of the component's "Load Demo Image" button. *)
Definition demo : File :=
  mkFile "demo.png" "image/png" [x89; x50; x4e; x47; x0d; x0a; x1a; x0a].

(** The all-zero 64-character hex string. *)
Definition all_zero_digest : string :=
  "0000000000000000000000000000000000000000000000000000000000000000".

(** A file that is present and has no bytes. *)
Definition empty_file : File := mkFile "empty.bin" "application/octet-stream" [].

(** A world whose random generator always returns [0.5]. *)
Definition steady (now : Z) : World := mkWorld now (fun _ => JSNumber.lit_0_5) 0.

(** [s.toUpperCase()], on the ASCII letters. *)
Definition upper_ascii (c : ascii) : ascii :=
  let n := nat_of_ascii c in
  if (Nat.leb 97 n && Nat.leb n 122)%bool then ascii_of_nat (n - 32) else c.

Fixpoint toUpperCase (s : string) : string :=
  match s with
  | EmptyString => EmptyString
  | String c rest => String (upper_ascii c) (toUpperCase rest)
  end.

(** The response is a success: HTTP 200 with a result body. *)
Definition succeeded (resp : NextResponse) : option VerifyResult :=
  match body resp with
  | ResultJson r => Some r
  | ErrorJson _ _ => None
  end.

(** The random draw [0.0714285714285714] (hexadecimal
    [0x1.249249249249p-4], a multiple of [2^-52]). *)
Definition tie_draw : number := S754_finite false 5146971002709136 (-56).

(** A world whose random generator always returns [tie_draw]. *)
Definition tied (now : Z) : World := mkWorld now (fun _ => tie_draw) 0.

(** A route on which the file's bytes are replaced and the claimed hash
    is left as the browser sent it. *)
Definition tamper (payload : list byte) (form : FormData) : FormData :=
  mkForm (option_map (fun f => mkFile (name f) (type f) payload) (fd_file form))
         (fd_hash form).


(** ** The real value of a Number

    The denotation of the binary64 values, used to bound the rounding
    of the arithmetic: [m * 2^e] as a real number. *)

From Stdlib Require Import Reals Lra.
Local Open Scope Z_scope.

Definition bpow (e : Z) : R := powerRZ 2 e.
Definition F2R (m e : Z) : R := (IZR m * bpow e)%R.
Definition value (x : spec_float) : R :=
  match x with
  | S754_finite s m e => F2R (cond_Zopp s (Zpos m)) e
  | _ => 0%R
  end.

(** A Number that is [+0] or positive and finite. *)
Definition nonneg_finite (x : spec_float) : Prop :=
  x = S754_zero false \/ exists p e, x = S754_finite false p e.


(** What the rounding step of an operation returns, non-negative sign,
    from the final mantissa and exponent. *)
Definition build (m e : Z) : spec_float :=
  match m with
  | 0 => S754_zero false
  | Zpos p => if e <=? JSNumber.emax - JSNumber.prec then S754_finite false p e
              else S754_infinity false
  | Zneg _ => S754_nan
  end.


(** [x] is the rounding of [V]: at most [2^-51] in relative error plus
    [2^-1073] below, [2^-52] and [2^-1074] above. *)
Definition within (V x : R) : Prop :=
  (V * (1 - 2 * bpow (-52)) - 2 * bpow (-1074) < x <= V * (1 + bpow (-52)) + bpow (-1074))%R.


(** The Numbers [n / 100] for [n] from 60 to 95 all lie between the
    Numbers 0.6 and 0.95. *)
Definition in_score_range (x : number) : bool :=
  JSNumber.leq JSNumber.lit_0_6 x && JSNumber.leq x JSNumber.lit_0_95.


(** ** The endpoint on every request

    [POST] above is the handler on the requests of its declared types:
    a form whose [file] entry is a file or absent and whose [hash] entry
    is a text or absent. A request body need not be a form, and an
    entry of a form is a file or a text whatever its name; this is the
    handler on all of them. *)

Inductive Entry :=
| FileEntry (file : File)
| TextEntry (text : string).

Inductive RequestBody :=
| NotAForm
| FormBody (file hash : option Entry).

(** The handler returns a response or throws. *)
Inductive Outcome :=
| Throws
| Responds (resp : NextResponse).

(** [request.formData()] rejects when the body is no form; [!file] holds
    of an absent entry and of the empty text; [file.arrayBuffer] is no
    function of a text; an object is truthy and never [===] a text. *)
Definition POST_any (request : RequestBody) : state World Outcome :=
  match request with
  | NotAForm => ret Throws
  | FormBody file clientHash =>
      match file with
      | None | Some (TextEntry EmptyString) =>
          ret (Responds (NextResponse_json (ErrorJson "error" "No file uploaded")
                                           (Some 400%Z)))
      | Some (TextEntry _) => ret Throws
      | Some (FileEntry file) =>
          let buffer := bytes file in
          let serverHash := serverHash_of buffer in
          let mismatch :=
            ret (Responds (NextResponse_json
                             (ErrorJson "error" "Hash mismatch - file may be tampered")
                             (Some 400%Z))) in
          let score (hash : string) :=
            r <- Math_random ;;
            let randomScore := randomScore_of r in
            let aiProb := aiProb_of randomScore in
            let message := message_of randomScore in
            now <- Date_now ;;
            r' <- Math_random ;;
            ret (Responds (NextResponse_json
                             (ResultJson
                                (mkResult "ok"
                                          ("PLS-" ++ Number_toString now)
                                          (round2 randomScore)
                                          (round2 aiProb)
                                          (mkExif None (JSNumber.gt r' JSNumber.lit_0_5))
                                          (Some hash)
                                          message))
                             None)) in
          match clientHash with
          | None => score serverHash
          | Some (FileEntry _) => mismatch
          | Some (TextEntry text) =>
              if truthy (Some text) && strict_neq (Some text) serverHash
              then mismatch
              else score (or_else (Some text) serverHash)
          end
      end
  end.

(** The request of a form of the declared types. *)
Definition typed (form : FormData) : RequestBody :=
  FormBody (option_map FileEntry (fd_file form)) (option_map TextEntry (fd_hash form)).

(** ** The component on every browser and backend

    The component above runs where the browser hashes every file, the
    backend is this endpoint, and each handler ends before the next
    event. What follows is the component where none of these need hold:
    hashing and previewing may fail, anything may answer the request,
    and a handler is suspended at its [await], where other events are
    handled. *)

(** A value made of data: what [resp.json()] resolves to, and what
    [mockVerify] builds. *)
#[warnings="-register-all"]
Inductive JSON :=
| JNull
| JBool (b : bool)
| JNumber (n : number)
| JString (s : string)
| JArray (items : list JSON)
| JObject (members : list (string * JSON)).

(** The bodies of the endpoint and the object of [mockVerify] as such
    values; [exif] has a [camera] member only in the mock's result for
    an image, and the mock's [hash] is [null] when the state's is. *)
Definition JSON_of_exif (e : Exif) : JSON :=
  JObject (List.app match camera e with
                    | Some c => [("camera"%string, JString c)]
                    | None => []
                    end
                    [("hasExif"%string, JBool (hasExif e))]).

Definition JSON_of_result (r : VerifyResult) : JSON :=
  JObject [("status", JString (status r));
           ("polarisId", JString (polarisId r));
           ("authenticityScore", JNumber (authenticityScore r));
           ("aiProbability", JNumber (aiProbability r));
           ("exif", JSON_of_exif (exif r));
           ("hash", match hash r with Some h => JString h | None => JNull end);
           ("message", JString (message r))]%string.

Definition JSON_of (json : Json) : JSON :=
  match json with
  | ErrorJson s m => JObject [("status", JString s); ("message", JString m)]%string
  | ResultJson r => JSON_of_result r
  end.

(** The six state variables of [PolarisMVP], [result] holding whatever
    value was set; [null] is [JNull]. *)
Record UI := mkUI {
  ui_file : option File;
  ui_previewUrl : option File;
  ui_hash : option string;
  ui_loading : bool;
  ui_result : JSON;
  ui_error : option string
}.

Definition mounted : UI := mkUI None None None false JNull None.

(** The state above among these. *)
Definition UI_of (st : ClientState) : UI :=
  mkUI (st_file st) (st_previewUrl st) (st_hash st) (st_loading st)
       (match st_result st with Some json => JSON_of json | None => JNull end)
       (st_error st).

(** [handleFiles(files)] up to its [await computeSHA256(f)]: the new
    state, and the file whose hash it waits for. [previewed] tells
    whether [URL.createObjectURL] returns; when it throws, the [catch]
    runs. *)
Definition handleFiles_starts (previewed : bool) (files : list File) (ui : UI)
    : UI * option File :=
  match files with
  | [] =>
      (mkUI (ui_file ui) (ui_previewUrl ui) (ui_hash ui) (ui_loading ui) JNull None, None)
  | f :: _ =>
      let preview :=
        if (startsWith "image/" (type f) || startsWith "video/" (type f))%bool
        then (if previewed then Some f else None) else None in
      (mkUI (Some f) preview (ui_hash ui) true JNull None, Some f)
  end.

(** [handleFiles] from that [await] on, in the state of that time.
    [hashed] tells whether [computeSHA256(f)] resolves; when it
    rejects, the [catch] runs. *)
Definition handleFiles_settles (hashed : bool) (f : File) (ui : UI) : UI :=
  if hashed
  then mkUI (ui_file ui) (ui_previewUrl ui) (Some (computeSHA256 f)) false
            (ui_result ui) (ui_error ui)
  else mkUI (ui_file ui) (ui_previewUrl ui) None false
            (ui_result ui) (Some "Failed to compute file hash"%string).

(** [handleFiles] with no other event handled while it waits. *)
Definition handleFiles_in (hashed previewed : bool) (files : list File) (ui : UI) : UI :=
  match handleFiles_starts previewed files ui with
  | (ui', Some f) => handleFiles_settles hashed f ui'
  | (ui', None) => ui'
  end.

(** [handleFileInput(e)] and [handleDrop(e)] call [handleFiles] only
    when the event carries a non-empty file list ([e.target.files],
    [e.dataTransfer.files]); [None] stands for a missing list. *)
Definition handleFileInput (files : option (list File)) (hashed previewed : bool)
    (ui : UI) : UI :=
  match files with
  | Some (f :: rest) => handleFiles_in hashed previewed (f :: rest) ui
  | _ => ui
  end.

Definition handleDrop (files : option (list File)) (hashed previewed : bool)
    (ui : UI) : UI :=
  match files with
  | Some (f :: rest) => handleFiles_in hashed previewed (f :: rest) ui
  | _ => ui
  end.

(** [clearAll()]; the [dragOver] flag is not part of this state, and
    [loading] is not touched. *)
Definition clearAll (ui : UI) : UI :=
  mkUI None None None (ui_loading ui) JNull None.

(** What [fetch] and [resp.json()] give the component: no response at
    all, or a status code with the value of the body, [None] when the
    body is no JSON. *)
Inductive Reply :=
| NoReply
| Replies (code : Z) (json : option JSON).

(** Whatever answers the request: any function of the form sent and of
    the world. *)
Definition Backend : Type := FormData -> state World Reply.

(** What a suspended [uploadAndVerify] goes on with: the [file] and the
    [hash] of the render whose button was clicked. *)
Record Upload := mkUpload { up_file : File; up_hash : option string }.

(** [uploadAndVerify()] up to its [await fetch(...)]. *)
Definition uploadAndVerify_starts (ui : UI) : UI * option Upload :=
  match ui_file ui with
  | None =>
      (mkUI None (ui_previewUrl ui) (ui_hash ui) (ui_loading ui) JNull
            (Some "No file selected"%string), None)
  | Some file =>
      (mkUI (Some file) (ui_previewUrl ui) (ui_hash ui) true JNull None,
       Some (mkUpload file (ui_hash ui)))
  end.

(** [uploadAndVerify] from that [await] on, in the state of that time:
    it falls back to the mock when [fetch] rejects, when the status is
    not 2xx, and when [resp.json()] throws, and then sets [result] and
    [loading] and nothing else. *)
Definition uploadAndVerify_settles (backend : Backend) (up : Upload) (ui : UI)
    : state World UI :=
  let form := mkForm (Some (up_file up))
                     (if truthy (up_hash up) then up_hash up else None) in
  let finish (json : JSON) :=
    mkUI (ui_file ui) (ui_previewUrl ui) (ui_hash ui) false json (ui_error ui) in
  let fallback :=
    mock <- mockVerify (up_file up) (up_hash up) ;;
    ret (finish (JSON_of_result mock)) in
  reply <- backend form ;;
  match reply with
  | Replies code (Some json) =>
      if ((200 <=? code) && (code <=? 299))%Z then ret (finish json) else fallback
  | _ => fallback
  end.

(** [uploadAndVerify] with no other event handled while it waits. *)
Definition uploadAndVerify_over (backend : Backend) (ui : UI) : state World UI :=
  match uploadAndVerify_starts ui with
  | (ui', Some up) => uploadAndVerify_settles backend up ui'
  | (ui', None) => ret ui'
  end.

(** The backend that is this endpoint behind a network. *)
Definition endpoint_behind (net : Network) : Backend :=
  fun form =>
    fetched <- fetch net form ;;
    ret match fetched with
        | Rejects => NoReply
        | Resolves resp => Replies (http_status resp) (Some (JSON_of (body resp)))
        end.

(** What the user can do with the component as it is rendered: drop or
    pick files, load the demo image, and, while a file is selected,
    analyse (unless [loading]) and clear. Each event comes with what
    the browser and the backend do on it. *)
Inductive Event :=
| Drop (files : option (list File)) (hashed previewed : bool)
| Pick (files : option (list File)) (hashed previewed : bool)
| LoadDemo (hashed previewed : bool)
| Analyze (backend : Backend)
| Clear.

(** One event handled from start to end, with no other event in
    between. *)
Definition react (ev : Event) (ui : UI) : state World UI :=
  match ev with
  | Drop files hashed previewed => ret (handleDrop files hashed previewed ui)
  | Pick files hashed previewed => ret (handleFileInput files hashed previewed ui)
  | LoadDemo hashed previewed => ret (handleFiles_in hashed previewed [demo] ui)
  | Analyze backend =>
      match ui_file ui with
      | Some _ => if ui_loading ui then ret ui else uploadAndVerify_over backend ui
      | None => ret ui
      end
  | Clear =>
      match ui_file ui with
      | Some _ => ret (clearAll ui)
      | None => ret ui
      end
  end.

Fixpoint session (evs : list Event) (ui : UI) : state World UI :=
  match evs with
  | [] => ret ui
  | ev :: rest => ui' <- react ev ui ;; session rest ui'
  end.

(** What holds of the component's state between two events when each
    handler ends before the next event. *)
Definition at_rest (ui : UI) : Prop :=
  ui_loading ui = false
  /\ match ui_file ui with
     | None =>
         ui_previewUrl ui = None /\ ui_hash ui = None
         /\ ui_result ui = JNull /\ ui_error ui = None
     | Some f =>
         (ui_previewUrl ui = None
          \/ (ui_previewUrl ui = Some f
              /\ (startsWith "image/" (type f) || startsWith "video/" (type f))%bool = true))
         /\ (ui_hash ui = None \/ ui_hash ui = Some (computeSHA256 f))
         /\ (ui_error ui = None
             \/ (ui_error ui = Some "Failed to compute file hash"%string
                 /\ ui_hash ui = None /\ ui_result ui = JNull))
     end.

Definition no_dot (s : string) : bool :=
  all_chars (fun c => negb (Ascii.eqb c "."%char)) s.

Definition image_extensions : list string := ["jpg"; "jpeg"; "png"; "webp"]%string.

(** The route that delivers the form as it was sent. *)
Definition faithful : Network := Route (fun form => form).

(** A reader of hex text, the inverse of [bytesToHex]: the value of a
    lowercase hex digit, and the bytes of a text, two digits each. *)
Definition hex_value (c : ascii) : Z :=
  let n := Z.of_nat (nat_of_ascii c) in
  if (48 <=? n) && (n <=? 57) then n - 48 else n - 87.

Fixpoint hexToBytes (s : string) : list byte :=
  match s with
  | String hi (String lo rest) =>
      SHA256.Zbyte (hex_value hi * 16 + hex_value lo) :: hexToBytes rest
  | _ => []
  end.

(** ** The report *)

(** [Math.round(x)] of a finite [x]: the integer nearest to [x], the
    larger one of two. *)
Definition Math_round (x : number) : option Z :=
  match x with
  | S754_zero _ => Some 0
  | S754_finite s m e =>
      let signed := if s then Zneg m else Zpos m in
      Some match e with
           | Zneg p => (2 * signed + 2 ^ Zpos p) / 2 ^ (Zpos p + 1)
           | _ => signed * 2 ^ e
           end
  | _ => None
  end.

Definition lit_100 : number := Eval vm_compute in JSNumber.of_Z 100.

(** [Math.round((result.authenticityScore ?? 0) * 100)], the percentage
    of the report; an error body has no score. *)
Definition report_percent (result : Json) : option Z :=
  let score := match result with
               | ResultJson r => authenticityScore r
               | ErrorJson _ _ => JSNumber.lit_0
               end in
  Math_round (JSNumber.mul score lit_100).

(** [Number(result.aiProbability ?? 0).toFixed(2)] *)
Definition report_aiProbability (result : Json) : JSNumber.fixed2 :=
  JSNumber.toFixed2 match result with
                    | ResultJson r => aiProbability r
                    | ErrorJson _ _ => JSNumber.lit_0
                    end.

(** The two numeric fields of a result are [n / 100] and [k / 100] with
    [n + k = 100], or [n + k = 101] at the two scores that end in a
    half hundredth. *)
Definition complementary_hundredths (r : VerifyResult) : Prop :=
  exists n k,
    authenticityScore r = JSNumber.decimal n 2
    /\ aiProbability r = JSNumber.decimal k 2
    /\ 60 <= n <= 95 /\ 5 <= k <= 40
    /\ (n + k = 100 \/ (n = 63 /\ k = 38) \/ (n = 88 /\ k = 13)).

(** The report shows the hundredths of the two fields as they are. *)
Definition report_shows_fields (r : VerifyResult) : Prop :=
  exists n k,
    authenticityScore r = JSNumber.decimal n 2
    /\ aiProbability r = JSNumber.decimal k 2
    /\ 60 <= n <= 95 /\ 5 <= k <= 40
    /\ report_percent (ResultJson r) = Some n
    /\ report_aiProbability (ResultJson r) = JSNumber.Hundredths false k.

(** The label goes with the score of the response as follows. *)
Definition label_matches_score (r : VerifyResult) : Prop :=
  exists n,
    authenticityScore r = JSNumber.decimal n 2
    /\ ((message r = "Likely Authentic"%string /\ 80 <= n <= 95)
        \/ (message r = "Uncertain"%string /\ 65 <= n <= 80)
        \/ (message r = "Likely AI-generated"%string /\ 60 <= n <= 65)).

Definition fixed2_eqb (a b : JSNumber.fixed2) : bool :=
  match a, b with
  | JSNumber.Hundredths s n, JSNumber.Hundredths s' n' => Bool.eqb s s' && (n =? n')
  | _, _ => false
  end.

(** A positive finite Number in the one form the arithmetic produces:
    53 bits of mantissa, or fewer at the least exponent. *)
Definition canonical (m : positive) (e : Z) : Prop :=
  (2 ^ 52 <= Zpos m < 2 ^ 53 /\ -1074 <= e <= 971)
  \/ (Zpos m < 2 ^ 52 /\ e = -1074).

(** Two random draws whose scores, 0.803 and 0.796, both round to 0.80. *)
Definition draw_0_58 : number := Eval vm_compute in JSNumber.decimal 58 2.
Definition draw_0_56 : number := Eval vm_compute in JSNumber.decimal 56 2.

(** * Properties *)

(** ** Test vectors of the digest *)

Example sha256_abc :
  digest_hex (SHA256.sha256 (bytes_of_string "abc"))
  = "ba7816bf8f01cfea414140de5dae2223b00361a396177a9cb410ff61f20015ad".
Proof. vm_compute. reflexivity. Qed.

Example sha256_empty :
  bytesToHex (SHA256.sha256 [])
  = "e3b0c44298fc1c149afbf4c8996fb92427ae41e4649b934ca495991b7852b855".
Proof. vm_compute. reflexivity. Qed.

Example sha256_two_blocks :
  digest_hex (SHA256.sha256
    (bytes_of_string "abcdbcdecdefdefgefghfghighijhijkijkljklmklmnlmnomnopnopq"))
  = "248d6a61d20638b8e5c026930c3e6039a33ce45964ff2167f6ecedd419db06c1".
Proof. vm_compute. reflexivity. Qed.

(** ** The three ways through [POST] *)

Lemma POST_no_file (h : option string) (w : World) :
  runState (POST (mkForm None h)) w = (no_file_response, w).
Proof. reflexivity. Qed.

Lemma POST_rejected (file : File) (c : option string) (w : World) :
  gate_rejects c (serverHash_of (bytes file)) = true ->
  runState (POST (mkForm (Some file) c)) w = (mismatch_response, w).
Proof.
  intros H. unfold POST, gate_rejects in *. cbn [fd_file fd_hash].
  rewrite H. reflexivity.
Qed.

Lemma POST_accepted (file : File) (c : option string) (w : World) :
  gate_rejects c (serverHash_of (bytes file)) = false ->
  runState (POST (mkForm (Some file) c)) w =
    (NextResponse_json
       (ResultJson (success_result file c (entropy w (draws w))
                                   (entropy w (S (draws w))) (clock w))) None,
     tick 2 w).
Proof.
  intros H. unfold POST, gate_rejects in *. cbn [fd_file fd_hash].
  rewrite H. reflexivity.
Qed.

(** The gate rejects exactly the claimed digests that are neither absent,
    nor empty, nor the server's digest character for character. *)
Lemma gate_rejects_true (c : option string) (s : string) :
  gate_rejects c s = true <-> exists d, c = Some d /\ d <> "" /\ d <> s.
Proof.
  unfold gate_rejects, truthy, strict_neq. split.
  - destruct c as [d|]; [|discriminate]. intros H. exists d.
    apply andb_true_iff in H. destruct H as [H1 H2].
    repeat split.
    + intros ->. discriminate.
    + intros ->. rewrite String.eqb_refl in H2. discriminate.
  - intros (d & -> & Hne & Hs). apply andb_true_iff. split.
    + destruct d; [contradiction | reflexivity].
    + apply negb_true_iff. now apply String.eqb_neq.
Qed.

Lemma gate_rejects_false (c : option string) (s : string) :
  gate_rejects c s = false <-> c = None \/ c = Some "" \/ c = Some s.
Proof.
  split.
  - intros H. destruct c as [d|]; [|now left]. right.
    destruct (string_dec d "") as [->|Hd]; [now left|right].
    destruct (string_dec d s) as [->|Hs]; [reflexivity|].
    assert (gate_rejects (Some d) s = true) by (apply gate_rejects_true; eauto).
    congruence.
  - intros [->|[->| ->]]; try reflexivity.
    unfold gate_rejects, strict_neq. rewrite String.eqb_refl. now rewrite andb_false_r.
Qed.

Lemma or_else_passed (c : option string) (s : string) :
  gate_rejects c s = false -> or_else c s = s.
Proof.
  intros H. apply gate_rejects_false in H. destruct H as [->|[->| ->]]; try reflexivity.
  destruct s; reflexivity.
Qed.

(** ** Digest text *)

Lemma byte_two_digits (x : byte) :
  slice_last2 ("00" ++ toString16 (SHA256.byteZ x))
  = String (hex_digit (SHA256.byteZ x / 16)) (String (hex_digit (SHA256.byteZ x mod 16)) "").
Proof. destruct x; reflexivity. Qed.

(** The browser's [bytesToHex] and Node's [digest("hex")] write the same text. *)
Lemma bytesToHex_digest_hex (bs : list byte) : bytesToHex bs = digest_hex bs.
Proof.
  induction bs as [|x rest IH]; [reflexivity|].
  cbn [bytesToHex digest_hex]. rewrite byte_two_digits, IH. reflexivity.
Qed.

Lemma digest_hex_length (bs : list byte) :
  String.length (digest_hex bs) = (2 * List.length bs)%nat.
Proof.
  induction bs as [|x rest IH]; [reflexivity|].
  cbn [digest_hex String.length List.length]. rewrite IH. lia.
Qed.

Lemma byte_digits_lower (x : byte) :
  is_lower_hex (hex_digit (SHA256.byteZ x / 16)) = true
  /\ is_lower_hex (hex_digit (SHA256.byteZ x mod 16)) = true.
Proof. destruct x; split; reflexivity. Qed.

Lemma digest_hex_lower (bs : list byte) : all_chars is_lower_hex (digest_hex bs) = true.
Proof.
  induction bs as [|x rest IH]; [reflexivity|].
  cbn [digest_hex all_chars]. destruct (byte_digits_lower x) as [-> ->]. exact IH.
Qed.

Lemma be_bytes_length (n : nat) (z : Z) : List.length (SHA256.be_bytes n z) = n.
Proof. induction n as [|k IH]; [reflexivity|]. cbn [SHA256.be_bytes List.length]. now rewrite IH. Qed.

Lemma sha256_length (msg : list byte) : List.length (SHA256.sha256 msg) = 32%nat.
Proof.
  unfold SHA256.sha256, SHA256.output.
  repeat rewrite List.length_app. repeat rewrite be_bytes_length. reflexivity.
Qed.

(** The server's digest is 64 lowercase hexadecimal characters. *)
Lemma serverHash_shape (buffer : list byte) :
  String.length (serverHash_of buffer) = 64%nat
  /\ all_chars is_lower_hex (serverHash_of buffer) = true.
Proof.
  unfold serverHash_of. split.
  - rewrite digest_hex_length, sha256_length. reflexivity.
  - apply digest_hex_lower.
Qed.

Lemma serverHash_nonempty (buffer : list byte) : serverHash_of buffer <> "".
Proof.
  intros H. pose proof (proj1 (serverHash_shape buffer)) as L.
  rewrite H in L. discriminate.
Qed.

(** ** Identifier text *)

Lemma Number_toString_inj (a b : Z) : Number_toString a = Number_toString b -> a = b.
Proof.
  unfold Number_toString. intros H.
  apply DecimalZ.to_int_inj.
  assert (E : Some (Z.to_int a) = Some (Z.to_int b))
    by (rewrite <- !NilEmpty.isi; now rewrite H).
  now injection E.
Qed.

(** ** The integrity gate *)

(** C1, as amended: for every upload that carries a file and a non-empty
    claimed digest different from the server's SHA-256 hex digest of the
    file's bytes, the endpoint answers status "error" with the
    hash-mismatch message and HTTP 400; the random generator is not
    drawn from and the world is left as it was, so no score is computed
    and no result is built. *)
Theorem POST_digest_mismatch (file : File) (d : string) (w : World) :
  d <> "" ->
  d <> serverHash_of (bytes file) ->
  runState (POST (mkForm (Some file) (Some d))) w = (mismatch_response, w)
  /\ succeeded mismatch_response = None
  /\ http_status mismatch_response = 400%Z.
Proof.
  intros Hd Hs. split; [|split; reflexivity].
  apply POST_rejected. apply gate_rejects_true. eauto.
Qed.

Lemma POST_digest_mismatch_witness :
  runState (POST (mkForm (Some demo) (Some all_zero_digest))) (steady 0)
  = (mismatch_response, steady 0)
  /\ succeeded mismatch_response = None
  /\ http_status mismatch_response = 400%Z.
Proof.
  apply (POST_digest_mismatch demo all_zero_digest (steady 0)).
  - discriminate.
  - vm_compute. discriminate.
Defined.

(** C1, as stated, fails: an empty claimed digest differs from the
    server's digest and the upload is scored all the same. *)
Lemma POST_empty_claimed_digest_scored :
  "" <> serverHash_of (bytes demo)
  /\ exists r, succeeded (fst (runState (POST (mkForm (Some demo) (Some ""))) (steady 0))) = Some r
               /\ status r = "ok"
               /\ http_status (fst (runState (POST (mkForm (Some demo) (Some ""))) (steady 0))) = 200%Z.
Proof.
  split.
  - intros H. symmetry in H. exact (serverHash_nonempty _ H).
  - rewrite POST_accepted by reflexivity. eexists. repeat split.
Qed.

(** C6, as amended: the gate compares the claimed digest with the
    server's digest by strict string equality, which is case-sensitive
    and length-exact: an upload with a file is accepted exactly when the
    claimed digest is absent, empty, or character for character the
    server's lowercase hex digest. *)
Theorem POST_gate_exact (file : File) (c : option string) (w : World) :
  (exists r, succeeded (fst (runState (POST (mkForm (Some file) c)) w)) = Some r)
  <-> (c = None \/ c = Some "" \/ c = Some (serverHash_of (bytes file))).
Proof.
  rewrite <- gate_rejects_false.
  destruct (gate_rejects c (serverHash_of (bytes file))) eqn:G.
  - rewrite POST_rejected by assumption. split.
    + intros [r H]. discriminate.
    + discriminate.
  - rewrite POST_accepted by assumption. split; [reflexivity|]. intros _. eexists. reflexivity.
Qed.

(** C6, as stated, fails: the server's digest written in upper case is
    the same digest up to letter case, and the gate rejects it. *)
Lemma POST_uppercase_digest_rejected :
  toLowerCase (toUpperCase (serverHash_of (bytes demo))) = serverHash_of (bytes demo)
  /\ fst (runState (POST (mkForm (Some demo) (Some (toUpperCase (serverHash_of (bytes demo))))))
                   (steady 0))
     = mismatch_response.
Proof. split; vm_compute; reflexivity. Qed.

(** ** Missing and empty uploads *)



(** ** The digest of record *)

(** C10, as amended: in every success response of [POST] the [hash]
    field is the server-computed digest of the uploaded file's bytes,
    64 lowercase hexadecimal characters, whether or not a claimed hash
    was supplied: on the success path the claimed hash is absent, or
    empty, which the handler treats as absent, or strictly equal to the
    server's. *)
Theorem POST_hash_is_server_digest (request : FormData) (w : World) (r : VerifyResult) :
  succeeded (fst (runState (POST request) w)) = Some r ->
  exists file,
    fd_file request = Some file
    /\ (fd_hash request = None \/ fd_hash request = Some ""
        \/ fd_hash request = Some (serverHash_of (bytes file)))
    /\ hash r = Some (serverHash_of (bytes file))
    /\ serverHash_of (bytes file) = digest_hex (SHA256.sha256 (bytes file))
    /\ String.length (serverHash_of (bytes file)) = 64%nat
    /\ all_chars is_lower_hex (serverHash_of (bytes file)) = true.
Proof.
  destruct request as [[file|] c]; [|rewrite POST_no_file; discriminate].
  destruct (gate_rejects c (serverHash_of (bytes file))) eqn:G.
  - rewrite POST_rejected by assumption. discriminate.
  - rewrite POST_accepted by assumption. cbn [fst succeeded body NextResponse_json].
    intros [= <-]. exists file. cbn [hash success_result].
    rewrite (or_else_passed _ _ G).
    destruct (serverHash_shape (bytes file)).
    split; [reflexivity|]. split; [now apply gate_rejects_false|].
    repeat split; assumption.
Qed.

Lemma POST_hash_is_server_digest_witness :
  exists file,
    fd_file (mkForm (Some demo) None) = Some file
    /\ (fd_hash (mkForm (Some demo) None) = None \/ fd_hash (mkForm (Some demo) None) = Some ""
        \/ fd_hash (mkForm (Some demo) None) = Some (serverHash_of (bytes file)))
    /\ hash (success_result demo None JSNumber.lit_0_5 JSNumber.lit_0_5 0)
       = Some (serverHash_of (bytes file))
    /\ serverHash_of (bytes file) = digest_hex (SHA256.sha256 (bytes file))
    /\ String.length (serverHash_of (bytes file)) = 64%nat
    /\ all_chars is_lower_hex (serverHash_of (bytes file)) = true.
Proof.
  apply (POST_hash_is_server_digest (mkForm (Some demo) None) (steady 0)).
  reflexivity.
Defined.

(** C10, as stated, fails: a claimed hash can be present on the success
    path without being equal to the server's. The empty text is a
    present [hash] entry, it is not the server's digest, and the
    response is a success whose [hash] field is the server's digest. *)
Lemma POST_present_hash_not_equal :
  fd_hash (mkForm (Some demo) (Some "")) = Some ""
  /\ strict_neq (Some "") (serverHash_of (bytes demo)) = true
  /\ exists r,
       succeeded (fst (runState (POST (mkForm (Some demo) (Some ""))) (steady 0))) = Some r
       /\ status r = "ok"
       /\ hash r = Some (serverHash_of (bytes demo))
       /\ hash r <> fd_hash (mkForm (Some demo) (Some "")).
Proof.
  split; [reflexivity|]. split; [vm_compute; reflexivity|].
  rewrite POST_accepted by reflexivity. eexists.
  split; [reflexivity|]. split; [reflexivity|]. split; [reflexivity|].
  cbn [hash success_result or_else truthy fd_hash]. intros H. injection H as H.
  exact (serverHash_nonempty _ H).
Qed.

(** C9: the digest of a byte sequence is a function of the bytes alone.
    Two runs of [POST] on files with the same bytes, under any two
    clocks and random generators, report the same digest; and the
    browser's [computeSHA256] yields that same text. *)
Theorem digest_deterministic (b : list byte) (n1 t1 n2 t2 : string) (w1 w2 : World)
    (r1 r2 : VerifyResult) :
  succeeded (fst (runState (POST (mkForm (Some (mkFile n1 t1 b)) None)) w1)) = Some r1 ->
  succeeded (fst (runState (POST (mkForm (Some (mkFile n2 t2 b)) None)) w2)) = Some r2 ->
  hash r1 = hash r2
  /\ hash r1 = Some (computeSHA256 (mkFile n1 t1 b))
  /\ computeSHA256 (mkFile n1 t1 b) = computeSHA256 (mkFile n2 t2 b).
Proof.
  rewrite !POST_accepted by reflexivity.
  cbn [fst succeeded body NextResponse_json]. intros [= <-] [= <-].
  cbn [hash success_result or_else bytes]. unfold computeSHA256, serverHash_of.
  cbn [bytes]. rewrite bytesToHex_digest_hex. repeat split.
Qed.

Lemma digest_deterministic_witness :
  hash (success_result demo None JSNumber.lit_0_5 JSNumber.lit_0_5 1)
  = hash (success_result (mkFile "copy.png" "image/png" (bytes demo)) None
            JSNumber.lit_0_5 JSNumber.lit_0_5 2)
  /\ hash (success_result demo None JSNumber.lit_0_5 JSNumber.lit_0_5 1)
     = Some (computeSHA256 demo)
  /\ computeSHA256 demo = computeSHA256 (mkFile "copy.png" "image/png" (bytes demo)).
Proof.
  apply (digest_deterministic (bytes demo) "demo.png" "image/png" "copy.png" "image/png"
           (steady 1) (steady 2)); reflexivity.
Defined.

(** ** Identifiers *)

Lemma PLS_prefix_inj (a b : string) : "PLS-" ++ a = "PLS-" ++ b -> a = b.
Proof. cbn [append]. now intros [= ->]. Qed.

(** C3, as amended: the identifier of a result is a function of the
    clock alone, [PLS-] followed by the decimal text of [Date.now()];
    it depends neither on the digest nor on any policy version, so two
    verifications, of the same content or not, have equal ids exactly
    when they read the same clock value. *)
Theorem POST_polarisId_from_clock (req1 req2 : FormData) (w1 w2 : World)
    (r1 r2 : VerifyResult) :
  succeeded (fst (runState (POST req1) w1)) = Some r1 ->
  succeeded (fst (runState (POST req2) w2)) = Some r2 ->
  polarisId r1 = "PLS-" ++ Number_toString (clock w1)
  /\ (polarisId r1 = polarisId r2 <-> clock w1 = clock w2).
Proof.
  destruct req1 as [[f1|] c1]; [|rewrite POST_no_file; discriminate].
  destruct req2 as [[f2|] c2]; [|rewrite (POST_no_file c2); discriminate].
  destruct (gate_rejects c1 (serverHash_of (bytes f1))) eqn:G1;
    [rewrite POST_rejected by assumption; discriminate|].
  destruct (gate_rejects c2 (serverHash_of (bytes f2))) eqn:G2;
    [rewrite (POST_rejected f2) by assumption; discriminate|].
  rewrite !POST_accepted by assumption.
  cbn [fst succeeded body NextResponse_json]. intros [= <-] [= <-].
  cbn [polarisId success_result]. split; [reflexivity|]. split.
  - intros H. apply PLS_prefix_inj in H. now apply Number_toString_inj.
  - now intros ->.
Qed.

Lemma POST_polarisId_from_clock_witness :
  polarisId (success_result demo None JSNumber.lit_0_5 JSNumber.lit_0_5 1700000000000)
  = "PLS-" ++ Number_toString (clock (steady 1700000000000))
  /\ (polarisId (success_result demo None JSNumber.lit_0_5 JSNumber.lit_0_5 1700000000000)
      = polarisId (success_result empty_file None JSNumber.lit_0_5 JSNumber.lit_0_5 1700000000000)
      <-> clock (steady 1700000000000) = clock (steady 1700000000000)).
Proof.
  apply (POST_polarisId_from_clock (mkForm (Some demo) None) (mkForm (Some empty_file) None)
           (steady 1700000000000) (steady 1700000000000)); reflexivity.
Defined.

(** C3, as stated, fails: the same bytes verified at two clock values
    get the same digest and two different ids. *)
Lemma POST_same_content_two_ids :
  exists r1 r2,
    succeeded (fst (runState (POST (mkForm (Some demo) None)) (steady 1700000000000))) = Some r1
    /\ succeeded (fst (runState (POST (mkForm (Some demo) None)) (steady 1700000000001))) = Some r2
    /\ hash r1 = hash r2
    /\ polarisId r1 = "PLS-1700000000000"
    /\ polarisId r2 = "PLS-1700000000001"
    /\ polarisId r1 <> polarisId r2.
Proof.
  rewrite !POST_accepted by reflexivity. do 2 eexists.
  split; [reflexivity|]. split; [reflexivity|]. split; [reflexivity|].
  split; [reflexivity|]. split; [reflexivity|]. cbn. discriminate.
Qed.

(** ** Labels *)

(** C5, as amended: the label is derived from the score, before it is
    rounded for the response, by strict comparisons with 0.8 and 0.65:
    above 0.8 it is "Likely Authentic", otherwise above 0.65 it is
    "Uncertain", otherwise "Likely AI-generated". So a score of exactly
    0.80 is Uncertain, and a score of exactly 0.65 is the synthetic
    label, not Uncertain. *)
Theorem message_thresholds :
  (forall x : number,
      (message_of x = "Likely Authentic" <-> JSNumber.gt x JSNumber.lit_0_8 = true)
      /\ (message_of x = "Uncertain"
          <-> JSNumber.gt x JSNumber.lit_0_8 = false /\ JSNumber.gt x JSNumber.lit_0_65 = true)
      /\ (message_of x = "Likely AI-generated"
          <-> JSNumber.gt x JSNumber.lit_0_8 = false /\ JSNumber.gt x JSNumber.lit_0_65 = false))
  /\ message_of JSNumber.lit_0_8 = "Uncertain"
  /\ message_of JSNumber.lit_0_65 = "Likely AI-generated"
  /\ (forall file c w,
         gate_rejects c (serverHash_of (bytes file)) = false ->
         option_map message (succeeded (fst (runState (POST (mkForm (Some file) c)) w)))
         = Some (message_of (randomScore_of (entropy w (draws w))))).
Proof.
  split; [|split; [reflexivity|split; [reflexivity|]]].
  - intros x. unfold message_of.
    destruct (JSNumber.gt x JSNumber.lit_0_8), (JSNumber.gt x JSNumber.lit_0_65);
      repeat split; try discriminate; try reflexivity; intros [? ?]; discriminate.
  - intros file c w G. rewrite POST_accepted by assumption. reflexivity.
Qed.

(** C5, as stated, fails at the lower boundary: a score of exactly 0.65
    is labelled "Likely AI-generated", not "Uncertain". *)
Lemma message_at_0_65_is_synthetic :
  JSNumber.lit_0_65 = JSNumber.decimal 65 2
  /\ message_of JSNumber.lit_0_65 = "Likely AI-generated"
  /\ message_of JSNumber.lit_0_65 <> "Uncertain".
Proof. split; [vm_compute; reflexivity|]. split; [reflexivity|]. vm_compute. discriminate. Qed.

(** ** The complement of the score *)

(** C4 fails on the code at the random draw 0.0714285714285714: the
    score is exactly 0.625, its complement exactly 0.375, and the two
    are rounded to two decimals separately, both upwards: the response
    carries 0.63 and 0.38, whose sum is 1.01, in [POST] and in
    [mockVerify] alike. *)
Theorem complement_lost_in_rounding :
  unit_interval tie_draw = true
  /\ randomScore_of tie_draw = JSNumber.decimal 625 3
  /\ aiProb_of (randomScore_of tie_draw) = JSNumber.decimal 375 3
  /\ (exists r,
         succeeded (fst (runState (POST (mkForm (Some demo) None)) (tied 0))) = Some r
         /\ authenticityScore r = JSNumber.decimal 63 2
         /\ aiProbability r = JSNumber.decimal 38 2
         /\ JSNumber.add (authenticityScore r) (aiProbability r) = JSNumber.decimal 101 2
         /\ JSNumber.sub JSNumber.lit_1 (authenticityScore r) = JSNumber.decimal 37 2)
  /\ (let m := fst (runState (mockVerify demo None) (tied 0)) in
      authenticityScore m = JSNumber.decimal 63 2
      /\ aiProbability m = JSNumber.decimal 38 2).
Proof.
  split; [vm_compute; reflexivity|]. split; [vm_compute; reflexivity|].
  split; [vm_compute; reflexivity|]. split.
  - rewrite POST_accepted by reflexivity. eexists. split; [reflexivity|].
    repeat split; vm_compute; reflexivity.
  - split; vm_compute; reflexivity.
Qed.

(** ** The client's fallback *)

Lemma mockVerify_result (file : File) (h : option string) (w : World) :
  status (fst (runState (mockVerify file h) w)) = "ok"
  /\ authenticityScore (fst (runState (mockVerify file h) w))
     = round2 (randomScore_of (entropy w (draws w)))
  /\ hash (fst (runState (mockVerify file h) w)) = h.
Proof.
  unfold mockVerify.
  destruct (existsb _ _); repeat split.
Qed.

(** C2 fails on the code: when the endpoint rejects the upload for a
    digest mismatch (HTTP 400), [uploadAndVerify] takes the rejection
    for an unreachable backend and sets the result to what [mockVerify]
    returns: status "ok" with an authenticity score. *)
Theorem uploadAndVerify_mismatch_gets_mock_score
    (transit : FormData -> FormData) (file file' : File) (h : option string) (d : string)
    (p : option File) (l : bool) (res : option Json) (err : option string) (w : World) :
  transit (mkForm (Some file) (if truthy h then h else None)) = mkForm (Some file') (Some d) ->
  d <> "" ->
  d <> serverHash_of (bytes file') ->
  fst (runState (POST (transit (mkForm (Some file) (if truthy h then h else None)))) w)
  = mismatch_response
  /\ runState (uploadAndVerify (Route transit) (mkClient (Some file) p h l res err)) w
     = (mkClient (Some file) p h false
                 (Some (ResultJson (fst (runState (mockVerify file h) w)))) None,
        snd (runState (mockVerify file h) w))
  /\ status (fst (runState (mockVerify file h) w)) = "ok"
  /\ authenticityScore (fst (runState (mockVerify file h) w))
     = round2 (randomScore_of (entropy w (draws w))).
Proof.
  intros Ht Hd Hs.
  assert (R : runState (POST (mkForm (Some file') (Some d))) w = (mismatch_response, w))
    by (apply POST_rejected, gate_rejects_true; eauto).
  split; [rewrite Ht, R; reflexivity|]. split.
  - unfold uploadAndVerify, fetch. cbn [st_file st_hash st_previewUrl].
    cbn [bind ret Monad_state runState]. rewrite Ht, R.
    cbn [ok mismatch_response NextResponse_json http_status Z.leb Z.compare Pos.compare
         Pos.compare_cont andb].
    cbn [runState]. destruct (runState (mockVerify file h) w) as [m w']. reflexivity.
  - destruct (mockVerify_result file h w) as (S1 & S2 & _). split; assumption.
Qed.

Lemma uploadAndVerify_mismatch_gets_mock_score_witness :
  fst (runState (POST (tamper [x00] (mkForm (Some demo)
         (if truthy (st_hash (handleFiles [demo] initial))
          then st_hash (handleFiles [demo] initial) else None)))) (steady 0))
  = mismatch_response
  /\ runState (uploadAndVerify (Route (tamper [x00]))
                 (mkClient (Some demo) (Some demo) (st_hash (handleFiles [demo] initial))
                           false None None)) (steady 0)
     = (mkClient (Some demo) (Some demo) (st_hash (handleFiles [demo] initial)) false
                 (Some (ResultJson (fst (runState (mockVerify demo
                    (st_hash (handleFiles [demo] initial))) (steady 0))))) None,
        snd (runState (mockVerify demo (st_hash (handleFiles [demo] initial))) (steady 0)))
  /\ status (fst (runState (mockVerify demo (st_hash (handleFiles [demo] initial))) (steady 0)))
     = "ok"
  /\ authenticityScore
       (fst (runState (mockVerify demo (st_hash (handleFiles [demo] initial))) (steady 0)))
     = round2 (randomScore_of (entropy (steady 0) (draws (steady 0)))).
Proof.
  apply (uploadAndVerify_mismatch_gets_mock_score (tamper [x00]) demo
           (mkFile "demo.png" "image/png" [x00])
           (st_hash (handleFiles [demo] initial))
           "4c4b6a3be1314ab86138bef4314dde022e600960d8689a2c8f8631802d20dab6"
           (Some demo) false None None (steady 0)).
  - vm_compute. reflexivity.
  - discriminate.
  - vm_compute. discriminate.
Defined.

(** ** Rounding of binary64 arithmetic *)

Lemma digits2_pos_bounds (p : positive) :
  2 ^ (Zpos (digits2_pos p) - 1) <= Zpos p < 2 ^ Zpos (digits2_pos p).
Proof.
  induction p as [p IH|p IH|]; cbn [digits2_pos].
  - rewrite Pos2Z.inj_succ, Z.pow_succ_r by lia.
    replace (Z.succ (Zpos (digits2_pos p)) - 1) with (Z.succ (Zpos (digits2_pos p) - 1)) by lia.
    rewrite Z.pow_succ_r by lia. lia.
  - rewrite Pos2Z.inj_succ, Z.pow_succ_r by lia.
    replace (Z.succ (Zpos (digits2_pos p)) - 1) with (Z.succ (Zpos (digits2_pos p) - 1)) by lia.
    rewrite Z.pow_succ_r by lia. lia.
  - cbn. lia.
Qed.

Lemma shr_1_half (mrs : shr_record) :
  0 <= shr_m mrs -> shr_m (shr_1 mrs) = shr_m mrs / 2.
Proof.
  destruct mrs as [m r s]. cbn [shr_m]. intros H.
  destruct m as [|p|p]; [reflexivity| |lia].
  destruct p as [p|p|]; cbn [shr_1 shr_m].
  - rewrite Pos2Z.inj_xI. apply Z.div_unique with 1; lia.
  - rewrite Pos2Z.inj_xO. apply Z.div_unique with 0; lia.
  - reflexivity.
Qed.

Lemma iter_shr_1 (n : positive) : forall mrs : shr_record,
  0 <= shr_m mrs -> shr_m (SpecFloat.iter_pos shr_1 n mrs) = shr_m mrs / 2 ^ Zpos n.
Proof.
  induction n as [n IH|n IH|]; intros mrs H; cbn [SpecFloat.iter_pos].
  - assert (H1 : 0 <= shr_m (shr_1 mrs)) by (rewrite shr_1_half by lia; apply Z.div_pos; lia).
    assert (H2 : 0 <= shr_m (SpecFloat.iter_pos shr_1 n (shr_1 mrs)))
      by (rewrite IH by lia; apply Z.div_pos; lia).
    rewrite IH, IH, shr_1_half by lia.
    rewrite !Z.div_div by lia. f_equal.
    replace (Zpos n~1) with (1 + Zpos n + Zpos n) by lia.
    rewrite !Z.pow_add_r, Z.pow_1_r by lia. lia.
  - assert (H2 : 0 <= shr_m (SpecFloat.iter_pos shr_1 n mrs))
      by (rewrite IH by lia; apply Z.div_pos; lia).
    rewrite IH, IH by lia.
    rewrite !Z.div_div by lia. f_equal.
    replace (Zpos n~0) with (Zpos n + Zpos n) by lia.
    rewrite !Z.pow_add_r by lia. lia.
  - now rewrite shr_1_half.
Qed.

Lemma shr_fexp_floor (m e : Z) (l : location) :
  0 <= m ->
  let n := Z.max 0 (fexp JSNumber.prec JSNumber.emax (Zdigits2 m + e) - e) in
  shr_m (fst (shr_fexp JSNumber.prec JSNumber.emax m e l)) = m / 2 ^ n
  /\ snd (shr_fexp JSNumber.prec JSNumber.emax m e l) = e + n.
Proof.
  intros Hm n. unfold shr_fexp, shr. fold (fexp JSNumber.prec JSNumber.emax (Zdigits2 m + e) - e) in *.
  assert (M : shr_m (shr_record_of_loc m l) = m) by (destruct l as [|[]]; reflexivity).
  subst n. destruct (fexp JSNumber.prec JSNumber.emax (Zdigits2 m + e) - e) as [|p|p] eqn:E; cbn [fst snd].
  - rewrite M. cbn. rewrite Z.div_1_r. split; lia.
  - rewrite iter_shr_1, M by lia. rewrite Z.max_r by lia. split; reflexivity.
  - rewrite M. cbn. rewrite Z.div_1_r. split; lia.
Qed.

Lemma round_nearest_even_step (m : Z) (l : location) :
  m <= round_nearest_even m l <= m + 1.
Proof.
  destruct l as [|[]]; cbn [round_nearest_even]; try destruct (Z.even m); lia.
Qed.

Lemma Zdigits2_le_54 (m : Z) : 0 <= m <= 2 ^ 53 -> Zdigits2 m <= 54.
Proof.
  intros [H0 H1]. destruct m as [|p|p]; cbn [Zdigits2]; [lia| |lia].
  destruct (digits2_pos_bounds p) as [L _].
  assert (Zpos (digits2_pos p) - 1 <= 53); [|lia].
  apply (Z.pow_le_mono_r_iff 2); lia.
Qed.

Lemma binary_round_aux_bounds (mx : positive) (ex : Z) :
  2 ^ 52 <= Zpos mx ->
  exists m n1 n,
    binary_round_aux JSNumber.prec JSNumber.emax false (Zpos mx) ex loc_Exact = build m (ex + n)
    /\ 0 <= m /\ 0 <= n1 <= n /\ n <= n1 + 1
    /\ Zpos mx - 2 * 2 ^ n1 < m * 2 ^ n <= Zpos mx + 2 ^ n1
    /\ (2 ^ (n1 + 52) <= Zpos mx \/ ex + n1 = -1074).
Proof.
  intros Hmx. unfold binary_round_aux.
  destruct (shr_fexp_floor (Zpos mx) ex loc_Exact ltac:(lia)) as [M1 E1].
  destruct (shr_fexp JSNumber.prec JSNumber.emax (Zpos mx) ex loc_Exact) as [mrs' e'].
  cbn [fst snd] in M1, E1.
  set (n1 := Z.max 0 (fexp JSNumber.prec JSNumber.emax (Zdigits2 (Zpos mx) + ex) - ex)) in *.
  pose proof (digits2_pos_bounds mx) as [DL DU].
  set (d := Zpos (digits2_pos mx)) in *.
  assert (Hd : 53 <= d).
  { assert (52 < d); [|lia]. apply (Z.pow_lt_mono_r_iff 2); lia. }
  assert (Hn1 : n1 = Z.max (d - 53) (-1074 - ex)).
  { subst n1. unfold fexp, emin, JSNumber.prec, JSNumber.emax. cbn [Zdigits2]. fold d. lia. }
  assert (N1 : 0 <= n1) by lia.
  pose proof (round_nearest_even_step (shr_m mrs') (loc_of_shr_record mrs')) as R.
  set (m1r := round_nearest_even (shr_m mrs') (loc_of_shr_record mrs')) in *.
  set (m1 := Zpos mx / 2 ^ n1) in *. rewrite M1 in R.
  assert (P1 : 0 < 2 ^ n1) by (apply Z.pow_pos_nonneg; lia).
  assert (A1 : 2 ^ n1 * m1 <= Zpos mx) by (apply Z.mul_div_le; lia).
  assert (A2 : Zpos mx < 2 ^ n1 * Z.succ m1) by (apply Z.mul_succ_div_gt; lia).
  assert (A0 : 0 <= m1) by (apply Z.div_pos; lia).
  assert (A3 : m1 < 2 ^ 53).
  { apply Z.div_lt_upper_bound; [lia|]. rewrite <- Z.pow_add_r by lia.
    eapply Z.lt_le_trans; [exact DU|]. apply Z.pow_le_mono_r; lia. }
  destruct (shr_fexp_floor m1r e' loc_Exact ltac:(lia)) as [M2 E2].
  destruct (shr_fexp JSNumber.prec JSNumber.emax m1r e' loc_Exact) as [mrs'' e''].
  cbn [fst snd] in M2, E2.
  set (n2 := Z.max 0 (fexp JSNumber.prec JSNumber.emax (Zdigits2 m1r + e') - e')) in *.
  assert (N2 : 0 <= n2 <= 1).
  { pose proof (Zdigits2_le_54 m1r ltac:(lia)).
    subst n2. unfold fexp, emin, JSNumber.prec, JSNumber.emax. lia. }
  exists (shr_m mrs''), n1, (n1 + n2).
  assert (P2 : 0 < 2 ^ n2) by (apply Z.pow_pos_nonneg; lia).
  assert (B1 : 2 ^ n2 * (m1r / 2 ^ n2) <= m1r) by (apply Z.mul_div_le; lia).
  assert (B2 : m1r < 2 ^ n2 * Z.succ (m1r / 2 ^ n2)) by (apply Z.mul_succ_div_gt; lia).
  assert (B0 : 0 <= m1r / 2 ^ n2) by (apply Z.div_pos; lia).
  rewrite M2. split; [|split; [exact B0|split; [lia|split; [lia|split]]]].
  - rewrite E2, E1. replace (ex + (n1 + n2)) with (ex + n1 + n2) by lia.
    unfold build. destruct (m1r / 2 ^ n2); reflexivity.
  - rewrite Z.pow_add_r by lia.
    assert (C : n2 = 0 \/ n2 = 1) by lia.
    destruct C as [C|C]; rewrite C in *; change (2 ^ 0) with 1 in *; change (2 ^ 1) with 2 in *;
      nia.
  - rewrite Hn1. destruct (Z.max_spec (d - 53) (-1074 - ex)) as [[_ ->]|[_ ->]].
    + right. lia.
    + left. replace (d - 53 + 52) with (d - 1) by lia. exact DL.
Qed.

Ltac hide_bpow :=
  repeat match goal with
         | |- context [bpow ?e] => let b := fresh "b" in set (b := bpow e) in *; clearbody b
         | H : context [bpow ?e] |- _ => let b := fresh "b" in set (b := bpow e) in *; clearbody b
         end.

Lemma bpow_pos (e : Z) : (0 < bpow e)%R.
Proof. apply powerRZ_lt. lra. Qed.

Lemma bpow_add (a b : Z) : bpow (a + b) = (bpow a * bpow b)%R.
Proof. apply powerRZ_add. lra. Qed.

Lemma bpow_IZR (n : Z) : 0 <= n -> bpow n = IZR (2 ^ n).
Proof.
  intros H. unfold bpow. rewrite <- (Z2Nat.id n H) at 1 2.
  rewrite <- pow_powerRZ, pow_IZR. reflexivity.
Qed.

Lemma bpow_le (a b : Z) : a <= b -> (bpow a <= bpow b)%R.
Proof.
  intros H. replace b with (a + (b - a)) by lia. rewrite bpow_add, (bpow_IZR (b - a)) by lia.
  assert (1 <= 2 ^ (b - a)) by (apply (Z.pow_le_mono_r 2 0); lia).
  apply IZR_le in H0. pose proof (bpow_pos a). nra.
Qed.

Lemma bpow_lt_inv (a b : Z) : (bpow a < bpow b)%R -> a < b.
Proof.
  intros H. destruct (Z_lt_le_dec a b) as [L|L]; [exact L|].
  apply bpow_le in L. lra.
Qed.

Lemma bpow_opp (n : Z) : (bpow (- n) * bpow n = 1)%R.
Proof. rewrite <- bpow_add. replace (- n + n) with 0 by lia. reflexivity. Qed.

Lemma F2R_shift (m e n : Z) : 0 <= n -> F2R (m * 2 ^ n) e = F2R m (e + n).
Proof.
  intros H. unfold F2R. rewrite mult_IZR, bpow_add, <- (bpow_IZR n H). ring.
Qed.

Lemma value_nonneg (x : spec_float) : nonneg_finite x -> (0 <= value x)%R.
Proof.
  intros [->|(p & e & ->)]; cbn [value cond_Zopp]; [lra|].
  unfold F2R. pose proof (bpow_pos e). assert (0 < IZR (Zpos p))%R by (apply IZR_lt; lia). nra.
Qed.

(** The rounding step of every operation, on a positive mantissa of at
    least 53 bits and below 2 in value: the result is [+0] or positive
    and finite, within a relative error of [2^-51] plus [2^-1073]. *)
Lemma binary_round_aux_value (mx : positive) (ex : Z) :
  2 ^ 52 <= Zpos mx ->
  (F2R (Zpos mx) ex < 2)%R ->
  let x := binary_round_aux JSNumber.prec JSNumber.emax false (Zpos mx) ex loc_Exact in
  nonneg_finite x
  /\ (F2R (Zpos mx) ex * (1 - 2 * bpow (-52)) - 2 * bpow (-1074) < value x
      <= F2R (Zpos mx) ex * (1 + bpow (-52)) + bpow (-1074))%R.
Proof.
  intros Hmx HV x. subst x.
  destruct (binary_round_aux_bounds mx ex Hmx) as (m & n1 & n & -> & Hm & Hn1 & Hn & B & D).
  assert (U : (bpow (ex + n1) <= F2R (Zpos mx) ex * bpow (-52) + bpow (-1074))%R).
  { pose proof (bpow_pos (-1074)). pose proof (bpow_pos (ex + n1)).
    destruct D as [D|D].
    - apply IZR_le in D. rewrite <- bpow_IZR in D by lia.
      replace (ex + n1) with (n1 + 52 + (ex + -52)) by lia.
      rewrite (bpow_add (n1 + 52)), (bpow_add ex). unfold F2R.
      pose proof (bpow_pos ex). pose proof (bpow_pos (-52)).
      assert (T : (0 < bpow ex * bpow (-52))%R) by (apply Rmult_lt_0_compat; assumption).
      pose proof (Rmult_le_compat_r _ _ _ (Rlt_le _ _ T) D) as Q.
      hide_bpow. lra.
    - rewrite D. unfold F2R. pose proof (bpow_pos ex). pose proof (bpow_pos (-52)).
      assert (0 < IZR (Zpos mx))%R by (apply IZR_lt; lia).
      assert (0 <= IZR (Zpos mx) * bpow ex * bpow (-52))%R
        by (repeat apply Rmult_le_pos; lra).
      hide_bpow. lra. }
  assert (E : ex + n <= 971).
  { destruct D as [D|D]; [|lia].
    assert (ex + n1 + 52 < 1); [|lia]. apply bpow_lt_inv.
    apply IZR_le in D. rewrite <- bpow_IZR in D by lia.
    replace (ex + n1 + 52) with (n1 + 52 + ex) by lia. rewrite bpow_add.
    rewrite (bpow_IZR 1) by lia. change (IZR (2 ^ 1)) with 2%R.
    unfold F2R in HV. pose proof (bpow_pos ex).
    pose proof (Rmult_le_compat_r _ _ _ (Rlt_le _ _ H) D). hide_bpow. lra. }
  assert (Vm : value (build m (ex + n)) = F2R m (ex + n)).
  { unfold build. destruct m as [|p|p]; [unfold F2R; cbn; lra| |lia].
    unfold JSNumber.emax, JSNumber.prec. replace (ex + n <=? 1024 - 53) with true
      by (symmetry; apply Z.leb_le; lia). reflexivity. }
  split.
  - unfold build. destruct m as [|p|p]; [now left| |lia]. right.
    unfold JSNumber.emax, JSNumber.prec. replace (ex + n <=? 1024 - 53) with true
      by (symmetry; apply Z.leb_le; lia). eauto.
  - rewrite Vm, <- F2R_shift by lia.
    destruct B as [B1 B2]. apply IZR_lt in B1. apply IZR_le in B2.
    rewrite minus_IZR, mult_IZR, <- bpow_IZR in B1 by lia.
    rewrite plus_IZR, <- bpow_IZR in B2 by lia.
    unfold F2R in *. rewrite bpow_add in U. pose proof (bpow_pos ex). pose proof (bpow_pos n1).
    pose proof (bpow_pos (-52)). pose proof (bpow_pos (-1074)).
    pose proof (Rmult_lt_compat_r _ _ _ H B1).
    pose proof (Rmult_le_compat_r _ _ _ (Rlt_le _ _ H) B2).
    hide_bpow. split; nra.
Qed.

Lemma bpow_neg (n : Z) : 0 <= n -> bpow (- n) = (/ IZR (2 ^ n))%R.
Proof.
  intros H. pose proof (bpow_opp n) as E. rewrite (bpow_IZR n H) in E.
  assert (0 < 2 ^ n) by (apply Z.pow_pos_nonneg; lia).
  assert (0 < IZR (2 ^ n))%R by (apply IZR_lt; lia).
  apply Rmult_eq_reg_r with (IZR (2 ^ n)); [|lra]. rewrite E. field. lra.
Qed.

Lemma iter_xO (mx d : positive) : Zpos (Pos.iter xO mx d) = Zpos mx * 2 ^ Zpos d.
Proof.
  induction d as [|d IH] using Pos.peano_ind.
  - cbn. lia.
  - rewrite Pos.iter_succ, Pos2Z.inj_xO, IH, Pos2Z.inj_succ, Z.pow_succ_r by lia. lia.
Qed.

Lemma shl_align_value (mx : positive) (ex ex' : Z) :
  F2R (Zpos (fst (shl_align mx ex ex'))) (snd (shl_align mx ex ex')) = F2R (Zpos mx) ex
  /\ Zpos mx <= Zpos (fst (shl_align mx ex ex'))
  /\ (ex' <= ex -> snd (shl_align mx ex ex') = ex').
Proof.
  unfold shl_align. destruct (ex' - ex) as [|d|d] eqn:E; cbn [fst snd].
  - repeat split; lia.
  - repeat split; lia.
  - rewrite iter_xO, F2R_shift by lia. replace (ex' + Zpos d) with ex by lia.
    assert (0 < 2 ^ Zpos d) by (apply Z.pow_pos_nonneg; lia).
    repeat split; nia.
Qed.

Lemma mul_value (mx my : positive) (ex ey : Z) :
  2 ^ 52 <= Zpos my ->
  (F2R (Zpos mx) ex * F2R (Zpos my) ey < 2)%R ->
  let z := JSNumber.mul (S754_finite false mx ex) (S754_finite false my ey) in
  nonneg_finite z /\ within (F2R (Zpos mx) ex * F2R (Zpos my) ey) (value z).
Proof.
  intros Hmy HV.
  assert (E : F2R (Zpos (mx * my)) (ex + ey) = (F2R (Zpos mx) ex * F2R (Zpos my) ey)%R).
  { unfold F2R. rewrite Pos2Z.inj_mul, mult_IZR, bpow_add. ring. }
  unfold within. rewrite <- E in *.
  apply (binary_round_aux_value (mx * my) (ex + ey)); [nia|exact HV].
Qed.

Lemma add_value (mx my : positive) (ex ey : Z) :
  2 ^ 52 <= Zpos mx ->
  (F2R (Zpos mx) ex + F2R (Zpos my) ey < 2)%R ->
  let z := JSNumber.add (S754_finite false mx ex) (S754_finite false my ey) in
  nonneg_finite z /\ within (F2R (Zpos mx) ex + F2R (Zpos my) ey) (value z).
Proof.
  intros Hmx HV. unfold JSNumber.add, SFadd. cbn [cond_Zopp].
  set (ez := Z.min ex ey).
  destruct (shl_align_value mx ex ez) as (Vx & Lx & Ex).
  destruct (shl_align_value my ey ez) as (Vy & Ly & Ey).
  rewrite Ex in Vx by lia. rewrite Ey in Vy by lia.
  set (a := fst (shl_align mx ex ez)) in *. set (b := fst (shl_align my ey ez)) in *.
  change (Zpos a + Zpos b) with (Zpos (a + b)).
  cbn [binary_normalize]. unfold binary_round.
  destruct (shl_align_value (a + b) ez
              (fexp JSNumber.prec JSNumber.emax (Zpos (digits2_pos (a + b)) + ez)))
    as (Vz & Lz & _).
  destruct (shl_align (a + b) ez
              (fexp JSNumber.prec JSNumber.emax (Zpos (digits2_pos (a + b)) + ez)))
    as [mz ez'].
  cbn [fst snd] in Vz, Lz.
  assert (E : F2R (Zpos mz) ez' = (F2R (Zpos mx) ex + F2R (Zpos my) ey)%R).
  { rewrite Vz, <- Vx, <- Vy. unfold F2R. rewrite Pos2Z.inj_add, plus_IZR. ring. }
  unfold within. rewrite <- E in *.
  apply (binary_round_aux_value mz ez'); [lia|exact HV].
Qed.

(** ** The range of the score *)

Lemma bpow_m52 : bpow (-52) = (/ IZR (2 ^ 52))%R.
Proof. exact (bpow_neg 52 ltac:(lia)). Qed.

Lemma bpow_m53 : bpow (-53) = (/ IZR (2 ^ 53))%R.
Proof. exact (bpow_neg 53 ltac:(lia)). Qed.

Lemma bpow_m54 : bpow (-54) = (/ IZR (2 ^ 54))%R.
Proof. exact (bpow_neg 54 ltac:(lia)). Qed.

Lemma unit_interval_cases (r : number) :
  unit_interval r = true ->
  (exists s, r = S754_zero s)
  \/ (exists m e, r = S754_finite false m e /\ (F2R (Zpos m) e < 1)%R).
Proof.
  unfold unit_interval, JSNumber.leq, JSNumber.less, SFleb, SFltb.
  destruct r as [s|s| |s m e]; cbn [valid_binary SFcompare JSNumber.lit_0 JSNumber.lit_1].
  - intros _. left. eauto.
  - destruct s; cbn; intros H; discriminate.
  - cbn. intros H; discriminate.
  - intros H. right. exists m, e.
    destruct s; [rewrite andb_false_r in H; discriminate|].
    apply andb_true_iff in H. destruct H as [H L].
    apply andb_true_iff in H. destruct H as [B _].
    unfold bounded, canonical_mantissa in B. apply andb_true_iff in B. destruct B as [C _].
    apply Z.eqb_eq in C. unfold fexp, emin, JSNumber.prec, JSNumber.emax in C.
    pose proof (digits2_pos_bounds m) as [_ DU].
    split; [reflexivity|].
    assert (P : (0 < bpow e)%R) by apply bpow_pos.
    destruct (Z.compare_spec e (-52)) as [E|E|E]; try discriminate.
    + subst e. assert (M : Zpos m < 2 ^ 52).
      { change (2 ^ 52) with (Zpos 4503599627370496).
        destruct (Pos.compare_cont Eq m 4503599627370496) eqn:K; try discriminate.
        apply (proj1 (Pos.compare_lt_iff _ _)) in K. apply Pos2Z.pos_lt_pos in K. exact K. }
      apply IZR_lt in M. unfold F2R. rewrite bpow_m52.
      assert (0 < IZR (2 ^ 52))%R by (apply IZR_lt; reflexivity).
      apply Rmult_lt_reg_r with (IZR (2 ^ 52)); [assumption|].
      rewrite Rmult_assoc, Rinv_l by lra. lra.
    + assert (M : Zpos m < 2 ^ 53).
      { eapply Z.lt_le_trans; [exact DU|]. apply Z.pow_le_mono_r; lia. }
      assert (Le : (bpow e <= bpow (-53))%R) by (apply bpow_le; lia).
      rewrite bpow_m53 in Le.
      apply IZR_lt in M. unfold F2R.
      assert (0 < IZR (2 ^ 53))%R by (apply IZR_lt; reflexivity).
      assert (0 < IZR (Zpos m))%R by (apply IZR_lt; lia).
      apply Rle_lt_trans with (IZR (Zpos m) * / IZR (2 ^ 53))%R.
      * apply Rmult_le_compat_l; lra.
      * apply Rmult_lt_reg_r with (IZR (2 ^ 53)); [assumption|].
        rewrite Rmult_assoc, Rinv_l by lra. lra.
Qed.

Lemma value_lit_0_6 : (5999 / 10000 < value JSNumber.lit_0_6 < 6001 / 10000)%R.
Proof.
  unfold JSNumber.lit_0_6. cbn [value cond_Zopp]. unfold F2R.
  rewrite bpow_m53. change (2 ^ 53) with 9007199254740992. lra.
Qed.

Lemma value_lit_0_35 : (3499 / 10000 < value JSNumber.lit_0_35 < 3501 / 10000)%R.
Proof.
  unfold JSNumber.lit_0_35. cbn [value cond_Zopp]. unfold F2R.
  rewrite bpow_m54. change (2 ^ 54) with 18014398509481984. lra.
Qed.

Lemma bpow_small : (0 < bpow (-1074) <= bpow (-52) /\ bpow (-52) < 1 / 1000000)%R.
Proof.
  split; [split; [apply bpow_pos|apply bpow_le; lia]|].
  rewrite bpow_m52. change (2 ^ 52) with 4503599627370496. lra.
Qed.

(** The score before rounding is a positive finite Number between
    0.599 and 0.951. *)
Lemma randomScore_range (r : number) :
  unit_interval r = true ->
  exists m e, randomScore_of r = S754_finite false m e
              /\ (599 / 1000 < F2R (Zpos m) e < 951 / 1000)%R.
Proof.
  intros H. pose proof value_lit_0_6 as V6. pose proof value_lit_0_35 as V35.
  pose proof bpow_small as [[S1 S2] S3].
  destruct (unit_interval_cases r H) as [[s ->]|(m & e & -> & Hr)].
  - exists 5404319552844595%positive, (-53). split; [destruct s; reflexivity|].
    change (F2R (Zpos 5404319552844595) (-53)) with (value JSNumber.lit_0_6). lra.
  - unfold randomScore_of.
    assert (R0 : (0 < F2R (Zpos m) e)%R).
    { unfold F2R. apply Rmult_lt_0_compat; [apply IZR_lt; lia|apply bpow_pos]. }
    destruct (mul_value m 6305039478318694 e (-54)) as [Np Wp]; [lia| |].
    { change (F2R (Zpos 6305039478318694) (-54)) with (value JSNumber.lit_0_35). nra. }
    change (F2R (Zpos 6305039478318694) (-54)) with (value JSNumber.lit_0_35) in Wp.
    change (S754_finite false 6305039478318694 (-54)) with JSNumber.lit_0_35 in *.
    set (p := JSNumber.mul (S754_finite false m e) JSNumber.lit_0_35) in *.
    assert (Pu : (value p < 3502 / 10000)%R).
    { destruct Wp as [_ Wp].
      set (V := (F2R (Zpos m) e * value JSNumber.lit_0_35)%R) in *.
      assert (V0 : (0 <= V < 3501 / 10000)%R) by (subst V; split; nra).
      assert (V1 : (V * bpow (-52) <= 1 * (1 / 1000000))%R)
        by (apply Rmult_le_compat; lra).
      hide_bpow. lra. }
    pose proof (value_nonneg p Np) as Pl.
    destruct Np as [Ep|(mp & ep & Ep)]; rewrite Ep in *.
    + exists 5404319552844595%positive, (-53). split; [reflexivity|].
      change (F2R (Zpos 5404319552844595) (-53)) with (value JSNumber.lit_0_6). lra.
    + cbn [value cond_Zopp] in Pu, Pl.
      destruct (add_value 5404319552844595 mp (-53) ep) as [Nz Wz]; [lia| |].
      { change (F2R (Zpos 5404319552844595) (-53)) with (value JSNumber.lit_0_6). lra. }
      change (F2R (Zpos 5404319552844595) (-53)) with (value JSNumber.lit_0_6) in Wz.
      change (S754_finite false 5404319552844595 (-53)) with JSNumber.lit_0_6 in *.
      set (z := JSNumber.add JSNumber.lit_0_6 (S754_finite false mp ep)) in *.
      unfold within in Wz.
      set (V := (value JSNumber.lit_0_6 + F2R (Zpos mp) ep)%R) in *.
      assert (V0 : (5999 / 10000 < V < 9503 / 10000)%R) by (subst V; lra).
      assert (V1 : (V * bpow (-52) <= 1 * (1 / 1000000))%R)
        by (apply Rmult_le_compat; lra).
      assert (Zb : (599 / 1000 < value z < 951 / 1000)%R) by (hide_bpow; split; lra).
      destruct Nz as [Ez|(mz & ez & Ez)]; rewrite Ez in *.
      * cbn [value] in Zb. lra.
      * exists mz, ez. split; [reflexivity|exact Zb].
Qed.

Lemma toFixed2_range (m : positive) (e : Z) :
  (599 / 1000 < F2R (Zpos m) e < 951 / 1000)%R ->
  exists n, JSNumber.toFixed2 (S754_finite false m e) = JSNumber.Hundredths false n
            /\ 60 <= n <= 95.
Proof.
  intros [Lo Hi]. unfold F2R in *.
  assert (M1 : (1 <= IZR (Zpos m))%R) by (apply IZR_le; lia).
  destruct e as [|p|p].
  - change (bpow 0) with 1%R in Hi. lra.
  - assert (bpow 0 <= bpow (Zpos p))%R by (apply bpow_le; lia).
    change (bpow 0) with 1%R in H. nra.
  - change (Zneg p) with (- Zpos p) in Lo, Hi. rewrite bpow_neg in Lo, Hi by lia.
    set (P := 2 ^ Zpos p) in *.
    assert (P0 : 0 < P) by (apply Z.pow_pos_nonneg; lia).
    assert (RP : (0 < IZR P)%R) by (apply IZR_lt; lia).
    assert (A : 599 * P < 1000 * Zpos m).
    { apply lt_IZR. rewrite !mult_IZR.
      apply Rmult_lt_compat_r with (r := IZR P) in Lo; [|exact RP].
      rewrite Rmult_assoc, Rinv_l in Lo by lra. lra. }
    assert (B : 1000 * Zpos m < 951 * P).
    { apply lt_IZR. rewrite !mult_IZR.
      apply Rmult_lt_compat_r with (r := IZR P) in Hi; [|exact RP].
      rewrite Rmult_assoc, Rinv_l in Hi by lra. lra. }
    exists ((200 * Zpos m + P) / 2 ^ (Zpos p + 1)).
    assert (E2 : 2 ^ (Zpos p + 1) = 2 * P) by (rewrite Z.pow_add_r by lia; subst P; lia).
    split.
    + unfold JSNumber.toFixed2, JSNumber.at_least_1e21, JSNumber.nearest_hundredths.
      fold P. replace (10 ^ 21 * P <=? Zpos m) with false; [reflexivity|].
      symmetry. apply Z.leb_gt. change (10 ^ 21) with 1000000000000000000000. lia.
    + rewrite E2. split.
      * apply Z.div_le_lower_bound; lia.
      * assert ((200 * Zpos m + P) / (2 * P) < 96); [|lia].
        apply Z.div_lt_upper_bound; lia.
Qed.

Lemma hundredths_in_range (n : Z) :
  60 <= n <= 95 ->
  JSNumber.Number (JSNumber.Hundredths false n) = JSNumber.decimal n 2
  /\ in_score_range (JSNumber.decimal n 2) = true.
Proof.
  intros H.
  assert (All : forallb (fun k => in_score_range (JSNumber.decimal (60 + Z.of_nat k) 2))
                        (seq 0 36) = true) by (vm_compute; reflexivity).
  rewrite forallb_forall in All.
  specialize (All (Z.to_nat (n - 60))).
  replace (60 + Z.of_nat (Z.to_nat (n - 60))) with n in All by lia.
  split.
  - destruct n as [|p|p]; try lia. reflexivity.
  - apply All. apply in_seq. lia.
Qed.

Lemma round2_randomScore (r : number) :
  unit_interval r = true ->
  exists n, 60 <= n <= 95
            /\ round2 (randomScore_of r) = JSNumber.decimal n 2
            /\ in_score_range (round2 (randomScore_of r)) = true.
Proof.
  intros H. destruct (randomScore_range r H) as (m & e & -> & B).
  destruct (toFixed2_range m e B) as (n & T & Hn).
  destruct (hundredths_in_range n Hn) as [N R].
  exists n. unfold round2. rewrite T, N. auto.
Qed.

(** C8: every authenticityScore that the reference scoring produces, in
    [POST] and in [mockVerify], lies between 0.60 and 0.95: it is one of
    the Numbers [n / 100] with [60 <= n <= 95], whenever [Math.random()]
    returns Numbers in [0, 1). *)
Theorem authenticityScore_range (w : World) :
  fair w ->
  (forall request r,
      succeeded (fst (runState (POST request) w)) = Some r ->
      in_score_range (authenticityScore r) = true
      /\ exists n, 60 <= n <= 95 /\ authenticityScore r = JSNumber.decimal n 2)
  /\ (forall file h,
         in_score_range (authenticityScore (fst (runState (mockVerify file h) w))) = true
         /\ exists n, 60 <= n <= 95
                      /\ authenticityScore (fst (runState (mockVerify file h) w))
                         = JSNumber.decimal n 2).
Proof.
  intros F. pose proof (round2_randomScore _ (F (draws w))) as (n & Hn & E & R). split.
  - intros [[file|] c] r; [|rewrite POST_no_file; discriminate].
    destruct (gate_rejects c (serverHash_of (bytes file))) eqn:G;
      [rewrite POST_rejected by assumption; discriminate|].
    rewrite POST_accepted by assumption. cbn [fst succeeded body NextResponse_json].
    intros [= <-]. cbn [authenticityScore success_result]. split; [exact R|eauto].
  - intros file h. destruct (mockVerify_result file h w) as (_ & -> & _).
    split; [exact R|eauto].
Qed.

Lemma steady_fair (now : Z) : fair (steady now).
Proof. intros i. vm_compute. reflexivity. Qed.

Lemma authenticityScore_range_witness :
  (forall request r,
      succeeded (fst (runState (POST request) (steady 0))) = Some r ->
      in_score_range (authenticityScore r) = true
      /\ exists n, 60 <= n <= 95 /\ authenticityScore r = JSNumber.decimal n 2)
  /\ (forall file h,
         in_score_range (authenticityScore (fst (runState (mockVerify file h) (steady 0)))) = true
         /\ exists n, 60 <= n <= 95
                      /\ authenticityScore (fst (runState (mockVerify file h) (steady 0)))
                         = JSNumber.decimal n 2).
Proof.
  apply (authenticityScore_range (steady 0)). intros i. vm_compute. reflexivity.
Defined.
(** ** The hex text of a buffer *)

Lemma byte_read_back (x : byte) :
  SHA256.Zbyte (hex_value (hex_digit (SHA256.byteZ x / 16)) * 16
                + hex_value (hex_digit (SHA256.byteZ x mod 16))) = x.
Proof. destruct x; reflexivity. Qed.

Lemma hexToBytes_bytesToHex (buffer : list byte) : hexToBytes (bytesToHex buffer) = buffer.
Proof.
  rewrite bytesToHex_digest_hex.
  induction buffer as [|x rest IH]; [reflexivity|].
  cbn [digest_hex hexToBytes]. now rewrite byte_read_back, IH.
Qed.

(** X1: [bytesToHex] loses nothing: two buffers with the same hex text
    are the same buffer, and the text is read back to the buffer by
    taking its characters two by two. *)
Theorem bytesToHex_injective (a b : list byte) :
  (bytesToHex a = bytesToHex b -> a = b)
  /\ hexToBytes (bytesToHex a) = a.
Proof.
  split; [|apply hexToBytes_bytesToHex].
  intros H. rewrite <- (hexToBytes_bytesToHex a), <- (hexToBytes_bytesToHex b), H. reflexivity.
Qed.

(** X2: [bytesToHex] writes exactly two characters per byte, each a
    lowercase hexadecimal digit, so a byte below sixteen keeps its
    leading zero; the text of [a ++ b] is the text of [a] followed by
    the text of [b]. *)
Theorem bytesToHex_shape (a b : list byte) :
  String.length (bytesToHex a) = (2 * List.length a)%nat
  /\ all_chars is_lower_hex (bytesToHex a) = true
  /\ bytesToHex (a ++ b) = bytesToHex a ++ bytesToHex b.
Proof.
  rewrite !bytesToHex_digest_hex. split; [apply digest_hex_length|].
  split; [apply digest_hex_lower|].
  induction a as [|x rest IH]; [reflexivity|].
  cbn [digest_hex app append]. now rewrite IH.
Qed.

(** ** The extension test of the mock *)

Lemma after_last_dot_none (e current : string) :
  no_dot e = true -> after_last_dot e current = current.
Proof.
  revert current. induction e as [|c rest IH]; intros current H; [reflexivity|].
  cbn [no_dot all_chars] in H. apply andb_true_iff in H. destruct H as [C R].
  cbn [after_last_dot]. apply negb_true_iff in C. rewrite C. now apply IH.
Qed.

Lemma after_last_dot_suffix (s e current : string) :
  no_dot e = true -> after_last_dot (s ++ String "."%char e) current = e.
Proof.
  intros H. revert current. induction s as [|c rest IH]; intros current.
  - cbn [append after_last_dot]. rewrite Ascii.eqb_refl. now apply after_last_dot_none.
  - cbn [append after_last_dot]. destruct (Ascii.eqb c "."%char); apply IH.
Qed.

(** X7: [mockVerify] decides whether a file is an image from the text
    after the last dot of its name, letter case ignored, and from
    nothing else: a name ending in [.e] with no dot in [e] is an image
    exactly when [e] in lower case is jpg, jpeg, png or webp, whatever
    precedes the dot and whatever the declared type and the bytes are.
    An image gets the camera "MockCam 1.0" and costs three random
    draws; any other file gets [{ hasExif: false }] and costs two. A
    name without a dot is its own extension. *)
Theorem mockVerify_extension (s e t : string) (b : list byte) (h : option string)
    (w : World) :
  no_dot e = true ->
  (let run := runState (mockVerify (mkFile (s ++ String "."%char e) t b) h) w in
   if existsb (String.eqb (toLowerCase e)) image_extensions
   then exif (fst run) = mkExif (Some "MockCam 1.0")
                                (JSNumber.gt (entropy w (2 + draws w)) JSNumber.lit_0_4)
        /\ snd run = tick 3 w
   else exif (fst run) = mkExif None false /\ snd run = tick 2 w)
  /\ (let run := runState (mockVerify (mkFile e t b) h) w in
      if existsb (String.eqb (toLowerCase e)) image_extensions
      then camera (exif (fst run)) = Some "MockCam 1.0" /\ snd run = tick 3 w
      else exif (fst run) = mkExif None false /\ snd run = tick 2 w).
Proof.
  intros H. split.
  - cbn zeta. unfold mockVerify. cbn [name]. rewrite (after_last_dot_suffix s e _ H).
    fold image_extensions.
    destruct (existsb (String.eqb (toLowerCase e)) image_extensions); split; reflexivity.
  - cbn zeta. unfold mockVerify. cbn [name]. rewrite (after_last_dot_none e e H).
    fold image_extensions.
    destruct (existsb (String.eqb (toLowerCase e)) image_extensions); split; reflexivity.
Qed.

Lemma mockVerify_extension_witness :
  (let run := runState (mockVerify (mkFile ("holiday.tar" ++ String "."%char "PNG")
                                           "application/zip" []) None) (steady 0) in
   if existsb (String.eqb (toLowerCase "PNG")) image_extensions
   then exif (fst run) = mkExif (Some "MockCam 1.0")
                                (JSNumber.gt (entropy (steady 0) (2 + draws (steady 0)))
                                             JSNumber.lit_0_4)
        /\ snd run = tick 3 (steady 0)
   else exif (fst run) = mkExif None false /\ snd run = tick 2 (steady 0))
  /\ (let run := runState (mockVerify (mkFile "PNG" "application/zip" []) None) (steady 0) in
      if existsb (String.eqb (toLowerCase "PNG")) image_extensions
      then camera (exif (fst run)) = Some "MockCam 1.0" /\ snd run = tick 3 (steady 0)
      else exif (fst run) = mkExif None false /\ snd run = tick 2 (steady 0)).
Proof.
  apply (mockVerify_extension "holiday.tar" "PNG" "application/zip" [] None (steady 0)).
  reflexivity.
Defined.

(** ** The endpoint on every request *)

Lemma computeSHA256_server (file : File) : computeSHA256 file = serverHash_of (bytes file).
Proof. unfold computeSHA256, serverHash_of. apply bytesToHex_digest_hex. Qed.

(** On the requests of its declared types [POST_any] is [POST]. *)
Lemma POST_any_typed (form : FormData) (w : World) :
  runState (POST_any (typed form)) w
  = (Responds (fst (runState (POST form) w)), snd (runState (POST form) w)).
Proof.
  destruct form as [[file|] c]; [|reflexivity].
  unfold typed, POST_any, POST. cbn [fd_file fd_hash option_map].
  destruct c as [text|]; cbn [option_map]; [|reflexivity].
  destruct (truthy (Some text) && strict_neq (Some text) (serverHash_of (bytes file)));
    reflexivity.
Qed.

(** X3: the handler on every request. It throws, before drawing or
    reading anything, exactly when the body is no form or the [file]
    entry is a non-empty text. Otherwise it answers HTTP 400 with a
    status "error" body, again drawing nothing: "No file uploaded" for
    an absent or empty [file] entry, the hash-mismatch message for a
    [hash] entry that is a file or a non-empty text other than the
    server's digest. Or it answers HTTP 200 with a status "ok" result
    whose hash is the server's digest of the uploaded file, under one
    of the three labels, after exactly two draws. On the forms of the
    declared types it is [POST]. *)
Theorem POST_any_outcomes (request : RequestBody) (w : World) :
  let out := fst (runState (POST_any request) w) in
  let w' := snd (runState (POST_any request) w) in
  ((out = Throws /\ w' = w
    /\ (request = NotAForm
        \/ exists text h, text <> "" /\ request = FormBody (Some (TextEntry text)) h))
   \/ (exists resp,
          out = Responds resp /\ w' = w /\ http_status resp = 400 /\ ok resp = false
          /\ ((body resp = ErrorJson "error" "No file uploaded"
               /\ exists h, request = FormBody None h
                            \/ request = FormBody (Some (TextEntry "")) h)
              \/ (body resp = ErrorJson "error" "Hash mismatch - file may be tampered"
                  /\ exists file h,
                       request = FormBody (Some (FileEntry file)) (Some h)
                       /\ h <> TextEntry "" /\ h <> TextEntry (serverHash_of (bytes file)))))
   \/ (exists resp r file h,
          out = Responds resp /\ w' = tick 2 w /\ http_status resp = 200 /\ ok resp = true
          /\ body resp = ResultJson r /\ status r = "ok"
          /\ request = FormBody (Some (FileEntry file)) h
          /\ (h = None \/ h = Some (TextEntry "")
              \/ h = Some (TextEntry (serverHash_of (bytes file))))
          /\ hash r = Some (serverHash_of (bytes file))
          /\ polarisId r = "PLS-" ++ Number_toString (clock w)
          /\ (message r = "Likely Authentic" \/ message r = "Uncertain"
              \/ message r = "Likely AI-generated")))
  /\ (forall form, runState (POST_any (typed form)) w
                   = (Responds (fst (runState (POST form) w)), snd (runState (POST form) w))).
Proof.
  split; [|intros form; apply POST_any_typed].
  assert (Labels : forall x, message_of x = "Likely Authentic" \/ message_of x = "Uncertain"
                             \/ message_of x = "Likely AI-generated").
  { intros x. unfold message_of.
    destruct (JSNumber.gt x JSNumber.lit_0_8); [now left|].
    destruct (JSNumber.gt x JSNumber.lit_0_65); [right; now left|right; now right]. }
  destruct request as [|[[file|text]|] c].
  - left. repeat split. now left.
  - destruct c as [[g|text]|].
    + right. left. eexists. split; [reflexivity|]. split; [reflexivity|].
      split; [reflexivity|]. split; [reflexivity|]. right. split; [reflexivity|].
      exists file, (FileEntry g). repeat split; discriminate.
    + cbn [POST_any].
      destruct (gate_rejects (Some text) (serverHash_of (bytes file))) eqn:G;
        unfold gate_rejects in G; rewrite G.
      * right. left. eexists. split; [reflexivity|]. split; [reflexivity|].
        split; [reflexivity|]. split; [reflexivity|]. right. split; [reflexivity|].
        exists file, (TextEntry text). split; [reflexivity|].
        fold (gate_rejects (Some text) (serverHash_of (bytes file))) in G.
        apply gate_rejects_true in G. destruct G as (d & [= <-] & Hd & Hs).
        split; intros [= E]; contradiction.
      * right. right. fold (gate_rejects (Some text) (serverHash_of (bytes file))) in G.
        do 2 eexists. exists file, (Some (TextEntry text)).
        split; [reflexivity|]. split; [reflexivity|]. split; [reflexivity|].
        split; [reflexivity|]. split; [reflexivity|]. split; [reflexivity|].
        split; [reflexivity|]. cbn [hash polarisId message].
        rewrite (or_else_passed _ _ G). apply gate_rejects_false in G.
        split; [|split; [reflexivity|split; [reflexivity|apply Labels]]].
        destruct G as [G|[G|G]]; [discriminate| |]; injection G as ->; auto.
    + right. right. do 2 eexists. exists file, None.
      split; [reflexivity|]. split; [reflexivity|]. split; [reflexivity|].
      split; [reflexivity|]. split; [reflexivity|]. split; [reflexivity|].
      split; [reflexivity|]. split; [now left|]. split; [reflexivity|].
      split; [reflexivity|]. apply Labels.
  - destruct text as [|ch rest].
    + right. left. eexists. split; [reflexivity|]. split; [reflexivity|].
      split; [reflexivity|]. split; [reflexivity|]. left. split; [reflexivity|].
      exists c. now right.
    + left. split; [reflexivity|]. split; [reflexivity|]. right.
      exists (String ch rest), c. split; [discriminate|reflexivity].
  - right. left. eexists. split; [reflexivity|]. split; [reflexivity|].
    split; [reflexivity|]. split; [reflexivity|]. left. split; [reflexivity|].
    exists c. now left.
Qed.

(** ** The component on every browser and backend *)

(** The component of the first part is this one where the browser
    hashes and previews every file and the backend is the endpoint
    behind a network. *)
Lemma handleFiles_in_succeeding (files : list File) (st : ClientState) :
  UI_of (handleFiles files st) = handleFiles_in true true files (UI_of st).
Proof. destruct files as [|f rest]; reflexivity. Qed.

Lemma uploadAndVerify_over_endpoint (net : Network) (st : ClientState) (w : World) :
  runState (uploadAndVerify_over (endpoint_behind net) (UI_of st)) w
  = (UI_of (fst (runState (uploadAndVerify net st) w)),
     snd (runState (uploadAndVerify net st) w)).
Proof.
  unfold uploadAndVerify, uploadAndVerify_over, uploadAndVerify_starts,
    uploadAndVerify_settles, endpoint_behind.
  destruct st as [[file|] p h l res err]; [|reflexivity].
  cbn [UI_of st_file st_hash st_previewUrl st_loading st_result st_error
       ui_file ui_hash ui_previewUrl ui_error up_file up_hash].
  cbn [bind ret Monad_state runState].
  destruct (runState (fetch net (mkForm (Some file) (if truthy h then h else None))) w)
    as [[|resp] w1]; cbn [fst snd runState].
  - destruct (runState (mockVerify file h) w1) as [m w2]. reflexivity.
  - unfold ok. destruct ((200 <=? http_status resp) && (http_status resp <=? 299));
      cbn [runState]; [reflexivity|].
    destruct (runState (mockVerify file h) w1) as [m w2]. reflexivity.
Qed.

Lemma mock_id_prefix (x : number) : String.prefix "PLS-MOCK-" (mock_id x) = true.
Proof.
  unfold mock_id. generalize (match JSNumber.floor x with
                              | Some z => Number_toString z
                              | None => match x with
                                        | S754_infinity false => "Infinity"
                                        | S754_infinity true => "-Infinity"
                                        | _ => "NaN"
                                        end
                              end).
  intros tail. cbn. destruct tail; reflexivity.
Qed.

Lemma mockVerify_echo (file : File) (h : option string) (w : World) :
  status (fst (runState (mockVerify file h) w)) = "ok"
  /\ hash (fst (runState (mockVerify file h) w)) = h
  /\ String.prefix "PLS-MOCK-" (polarisId (fst (runState (mockVerify file h) w))) = true.
Proof.
  unfold mockVerify.
  destruct (existsb _ _); (split; [reflexivity|split; [reflexivity|apply mock_id_prefix]]).
Qed.

(** What the rest of [uploadAndVerify] leaves, by the reply. *)
Lemma uploadAndVerify_settles_run (backend : Backend) (up : Upload) (ui : UI) (w : World) :
  let sent := runState (backend (mkForm (Some (up_file up))
                                        (if truthy (up_hash up) then up_hash up else None))) w in
  let mock := runState (mockVerify (up_file up) (up_hash up)) (snd sent) in
  let finish json :=
    mkUI (ui_file ui) (ui_previewUrl ui) (ui_hash ui) false json (ui_error ui) in
  runState (uploadAndVerify_settles backend up ui) w
  = match fst sent with
    | Replies code (Some json) =>
        if (200 <=? code) && (code <=? 299)
        then (finish json, snd sent)
        else (finish (JSON_of_result (fst mock)), snd mock)
    | _ => (finish (JSON_of_result (fst mock)), snd mock)
    end.
Proof.
  cbn zeta. unfold uploadAndVerify_settles.
  cbn [bind ret Monad_state runState].
  destruct (runState (backend _) w) as [reply w1]. cbn [fst snd].
  destruct reply as [|code [json|]]; cbn [runState];
    try destruct ((200 <=? code) && (code <=? 299)); cbn [runState];
    try reflexivity;
    destruct (runState (mockVerify (up_file up) (up_hash up)) w1) as [m w2]; reflexivity.
Qed.

Lemma uploadAndVerify_over_run (backend : Backend) (file : File) (p : option File)
    (h : option string) (l : bool) (res : JSON) (err : option string) (w : World) :
  let sent := runState (backend (mkForm (Some file) (if truthy h then h else None))) w in
  let mock := runState (mockVerify file h) (snd sent) in
  runState (uploadAndVerify_over backend (mkUI (Some file) p h l res err)) w
  = match fst sent with
    | Replies code (Some json) =>
        if (200 <=? code) && (code <=? 299)
        then (mkUI (Some file) p h false json None, snd sent)
        else (mkUI (Some file) p h false (JSON_of_result (fst mock)) None, snd mock)
    | _ => (mkUI (Some file) p h false (JSON_of_result (fst mock)) None, snd mock)
    end.
Proof.
  cbn zeta. unfold uploadAndVerify_over, uploadAndVerify_starts. cbn [ui_file].
  rewrite uploadAndVerify_settles_run. reflexivity.
Qed.

Lemma endpoint_reply (net : Network) (form : FormData) (w : World) :
  match fst (runState (endpoint_behind net form) w) with
  | NoReply => True
  | Replies code json =>
      (code = 400 /\ exists s m, json = Some (JSON_of (ErrorJson s m)))
      \/ (code = 200 /\ exists r, json = Some (JSON_of_result r) /\ status r = "ok")
  end.
Proof.
  unfold endpoint_behind, fetch. destruct net as [|transit]; [exact I|].
  cbn [bind ret Monad_state runState].
  destruct (transit form) as [[f|] c].
  - destruct (gate_rejects c (serverHash_of (bytes f))) eqn:G.
    + rewrite POST_rejected by assumption. left. split; [reflexivity|].
      do 2 eexists. reflexivity.
    + rewrite POST_accepted by assumption. right. split; [reflexivity|].
      eexists. split; reflexivity.
  - rewrite POST_no_file. left. split; [reflexivity|]. do 2 eexists. reflexivity.
Qed.

(** X6: a run of [uploadAndVerify] with a file selected, during which
    no other event is handled, ends with no error and [loading] off,
    whatever answers the request; the file, hash and preview are those
    it started with. The result is the value of the reply's body when
    the reply has a 2xx status and a JSON body, whatever that value is:
    an error body, [null], or anything else; in every other case (no
    reply, another status, a body that is no JSON) it is the status
    "ok" result of [mockVerify], with an id that starts with
    [PLS-MOCK-], carrying the browser's hash unchecked. The body of a
    reply with another status never reaches the state. When the backend
    is this endpoint behind a network that at most alters the form, the
    result is always a status "ok" result. *)
Theorem uploadAndVerify_over_verdict (backend : Backend) (file : File) (p : option File)
    (h : option string) (l : bool) (res : JSON) (err : option string) (w : World) :
  let sent := runState (backend (mkForm (Some file) (if truthy h then h else None))) w in
  let mock := fst (runState (mockVerify file h) (snd sent)) in
  let ui' := fst (runState (uploadAndVerify_over backend
                              (mkUI (Some file) p h l res err)) w) in
  (ui_error ui' = None /\ ui_loading ui' = false /\ ui_file ui' = Some file
   /\ ui_hash ui' = h /\ ui_previewUrl ui' = p)
  /\ ui_result ui'
     = match fst sent with
       | Replies code (Some json) =>
           if (200 <=? code) && (code <=? 299) then json else JSON_of_result mock
       | _ => JSON_of_result mock
       end
  /\ (status mock = "ok" /\ hash mock = h
      /\ String.prefix "PLS-MOCK-" (polarisId mock) = true)
  /\ (forall net,
         backend = endpoint_behind net ->
         exists r, ui_result ui' = JSON_of_result r /\ status r = "ok").
Proof.
  cbn zeta. split; [|split; [|split]].
  - rewrite uploadAndVerify_over_run. cbn zeta.
    destruct (fst (runState (backend _) w)) as [|code [json|]];
      try destruct ((200 <=? code) && (code <=? 299)); repeat split.
  - rewrite uploadAndVerify_over_run. cbn zeta.
    destruct (fst (runState (backend _) w)) as [|code [json|]];
      try destruct ((200 <=? code) && (code <=? 299)); reflexivity.
  - apply mockVerify_echo.
  - intros net ->. rewrite uploadAndVerify_over_run. cbn zeta.
    pose proof (endpoint_reply net (mkForm (Some file) (if truthy h then h else None)) w) as E.
    destruct (fst (runState (endpoint_behind net _) w)) as [|code json].
    + cbn [fst ui_result]. eexists. split; [reflexivity|]. apply mockVerify_echo.
    + destruct E as [(-> & s & m & ->)|(-> & r & -> & S)].
      * cbn [fst ui_result]. eexists. split; [reflexivity|]. apply mockVerify_echo.
      * exists r. split; [reflexivity|exact S].
Qed.

Lemma truthy_computeSHA256 (f : File) : truthy (Some (computeSHA256 f)) = true.
Proof.
  rewrite computeSHA256_server.
  pose proof (serverHash_nonempty (bytes f)) as H.
  destruct (serverHash_of (bytes f)); [contradiction|reflexivity].
Qed.

(** The endpoint behind the faithful network accepts a file sent
    without a hash or with its own. *)
Lemma faithful_accepts (f : File) (h : option string) (w : World) :
  h = None \/ h = Some (computeSHA256 f) ->
  runState (endpoint_behind faithful (mkForm (Some f) (if truthy h then h else None))) w
  = (Replies 200 (Some (JSON_of_result
                          (success_result f (if truthy h then h else None)
                                          (entropy w (draws w)) (entropy w (S (draws w)))
                                          (clock w)))),
     tick 2 w)
  /\ hash (success_result f (if truthy h then h else None)
             (entropy w (draws w)) (entropy w (S (draws w))) (clock w))
     = Some (computeSHA256 f).
Proof.
  intros H.
  assert (G : gate_rejects (if truthy h then h else None) (serverHash_of (bytes f)) = false).
  { apply gate_rejects_false. destruct H as [->| ->]; [now left|].
    destruct (truthy _); [|now left]. right. right. now rewrite computeSHA256_server. }
  split.
  - unfold endpoint_behind, faithful, fetch. cbn [bind ret Monad_state runState].
    rewrite POST_accepted by exact G. reflexivity.
  - cbn [hash success_result]. rewrite (or_else_passed _ _ G), computeSHA256_server.
    reflexivity.
Qed.

(** X4: the honest flow. After [handleFiles] has taken a file, a run of
    [uploadAndVerify] over a network that delivers the form unaltered
    to this endpoint is accepted, whether or not the browser could hash
    the file, provided that no other event is handled while either
    handler waits. When the browser could hash the file, the endpoint
    checks the hash, which agrees with its own digest; when it could
    not, the state has no hash and the error "Failed to compute file
    hash", the form goes without a hash, and the endpoint accepts it
    unchecked. Either way the state ends with the endpoint's status
    "ok" result, never the mock's: its id is [PLS-] and the clock, its
    hash is the SHA-256 of the file, and the error is cleared. *)
Theorem honest_upload_is_accepted (f : File) (rest : list File) (ui : UI)
    (hashed previewed : bool) (w : World) :
  let ui1 := handleFiles_in hashed previewed (f :: rest) ui in
  (ui_file ui1 = Some f
   /\ ui_hash ui1 = (if hashed then Some (computeSHA256 f) else None)
   /\ ui_error ui1 = (if hashed then None else Some "Failed to compute file hash")
   /\ ui_result ui1 = JNull
   /\ ui_loading ui1 = false)
  /\ exists r,
       runState (uploadAndVerify_over (endpoint_behind faithful) ui1) w
       = (mkUI (Some f) (ui_previewUrl ui1) (ui_hash ui1) false (JSON_of_result r) None,
          tick 2 w)
       /\ status r = "ok"
       /\ polarisId r = "PLS-" ++ Number_toString (clock w)
       /\ hash r = Some (computeSHA256 f).
Proof.
  cbn zeta. split; [destruct hashed; repeat split|].
  assert (H : ui_hash (handleFiles_in hashed previewed (f :: rest) ui) = None
              \/ ui_hash (handleFiles_in hashed previewed (f :: rest) ui)
                 = Some (computeSHA256 f))
    by (destruct hashed; [now right|now left]).
  assert (F : ui_file (handleFiles_in hashed previewed (f :: rest) ui) = Some f)
    by (destruct hashed; reflexivity).
  destruct (handleFiles_in hashed previewed (f :: rest) ui) as [fl p h l res err].
  cbn [ui_file ui_hash ui_previewUrl] in *. subst fl.
  destruct (faithful_accepts f h w H) as [A B].
  rewrite uploadAndVerify_over_run. cbn zeta.
  rewrite A. cbn [fst snd]. eexists. split; [reflexivity|].
  split; [reflexivity|]. split; [reflexivity|exact B].
Qed.

(** ** Sessions *)

Lemma handleFiles_in_at_rest (hashed previewed : bool) (f : File) (rest : list File)
    (ui : UI) :
  at_rest (handleFiles_in hashed previewed (f :: rest) ui).
Proof.
  unfold at_rest, handleFiles_in, handleFiles_starts, handleFiles_settles.
  destruct hashed; cbn [ui_file ui_hash ui_loading ui_previewUrl ui_result ui_error].
  - split; [reflexivity|]. split; [|split; [now right|now left]].
    destruct (_ || _)%bool; [destruct previewed|]; auto.
  - split; [reflexivity|]. split; [|split; [now left|right; auto]].
    destruct (_ || _)%bool; [destruct previewed|]; auto.
Qed.

Lemma uploadAndVerify_over_at_rest (backend : Backend) (ui : UI) (w : World) :
  ui_file ui <> None ->
  at_rest ui -> at_rest (fst (runState (uploadAndVerify_over backend ui) w)).
Proof.
  intros F (L & R). destruct ui as [[file|] p h l res err]; [|contradiction].
  cbn [ui_file ui_hash ui_previewUrl ui_error ui_result] in R.
  destruct R as (P & H & _).
  rewrite uploadAndVerify_over_run. cbn zeta.
  destruct (fst (runState (backend _) w)) as [|code [json|]];
    try destruct ((200 <=? code) && (code <=? 299));
    (split; [reflexivity|]; split; [exact P|]; split; [exact H|now left]).
Qed.

Lemma react_at_rest (ev : Event) (ui : UI) (w : World) :
  at_rest ui -> at_rest (fst (runState (react ev ui) w)).
Proof.
  intros H. destruct ev as [files hashed previewed|files hashed previewed|hashed previewed
                            |backend|]; cbn [react].
  - destruct files as [[|f rest]|]; cbn [handleDrop ret Monad_state runState fst];
      auto using handleFiles_in_at_rest.
  - destruct files as [[|f rest]|]; cbn [handleFileInput ret Monad_state runState fst];
      auto using handleFiles_in_at_rest.
  - cbn [ret Monad_state runState fst]. apply handleFiles_in_at_rest.
  - destruct (ui_file ui) as [f|] eqn:F; [|exact H].
    destruct (ui_loading ui); [exact H|].
    apply uploadAndVerify_over_at_rest; [congruence|exact H].
  - destruct (ui_file ui) as [f|] eqn:F; [|exact H].
    cbn [ret Monad_state runState fst]. destruct H as (L & _).
    unfold at_rest, clearAll.
    cbn [ui_file ui_hash ui_loading ui_previewUrl ui_result ui_error]. auto.
Qed.

Lemma session_at_rest (evs : list Event) : forall (ui : UI) (w : World),
  at_rest ui -> at_rest (fst (runState (session evs ui) w)).
Proof.
  induction evs as [|ev rest IH]; intros ui w H; [exact H|].
  cbn [session bind Monad_state runState].
  pose proof (react_at_rest ev ui w H) as H1.
  destruct (runState (react ev ui) w) as [ui1 w1]. cbn [fst] in H1.
  apply IH. exact H1.
Qed.

Lemma mounted_at_rest : at_rest mounted.
Proof. unfold at_rest, mounted. cbn. auto. Qed.

Lemma session_app (a b : list Event) : forall (ui : UI) (w : World),
  runState (session (a ++ b) ui) w
  = runState (session b (fst (runState (session a ui) w))) (snd (runState (session a ui) w)).
Proof.
  induction a as [|ev rest IH]; intros ui w; [reflexivity|].
  cbn [app session bind Monad_state runState].
  destruct (runState (react ev ui) w) as [ui1 w1]. apply IH.
Qed.

(** X8: when the events are handled one after the other, each handler
    running to its end before the next event, then whatever the user
    does with the component as it is rendered (drops, picks, the demo
    button, and, while a file is selected, analyses and clears),
    whatever the browser does on a file (hashing it or failing to,
    previewing it or failing to) and whatever answers the analyses,
    the state between two events is of one of two kinds. With no file
    selected, it has no hash, preview, result or error. With a file
    selected, the preview is absent or that of this file, which then
    is an image or a video; the hash is absent or the SHA-256 of this
    file; and the only error is "Failed to compute file hash", shown
    with no hash and no result. [loading] is off, and "No file
    selected" is never shown. Hence an analysis that follows, over a
    network that delivers the form unaltered to this endpoint, is never
    answered by a hash mismatch: it shows the endpoint's result for the
    selected file. *)
Theorem session_keeps_state_at_rest (evs : list Event) (w : World) :
  at_rest (fst (runState (session evs mounted) w))
  /\ ui_error (fst (runState (session evs mounted) w)) <> Some "No file selected"
  /\ (forall f,
         ui_file (fst (runState (session evs mounted) w)) = Some f ->
         exists r,
           ui_result (fst (runState (session (evs ++ [Analyze (endpoint_behind faithful)])
                                             mounted) w))
           = JSON_of_result r
           /\ status r = "ok"
           /\ polarisId r
              = "PLS-" ++ Number_toString (clock (snd (runState (session evs mounted) w)))
           /\ hash r = Some (computeSHA256 f)).
Proof.
  pose proof (session_at_rest evs mounted w mounted_at_rest) as R.
  split; [exact R|]. split.
  - destruct R as (_ & R). destruct (ui_file _) as [f|].
    + destruct R as (_ & _ & [E|(E & _)]); rewrite E; discriminate.
    + destruct R as (_ & _ & _ & E). rewrite E. discriminate.
  - intros f F. rewrite session_app.
    destruct (runState (session evs mounted) w) as [ui w1]. cbn [fst snd] in *.
    destruct R as (L & R). rewrite F in R. destruct R as (_ & H & _).
    destruct ui as [fl p h l res err].
    cbn [ui_file ui_hash ui_loading] in *. subst fl l.
    cbn [session react bind ret Monad_state runState ui_file ui_loading].
    destruct (faithful_accepts f h w1 H) as [A B].
    rewrite uploadAndVerify_over_run. cbn zeta. rewrite A. cbn [fst snd ui_result].
    eexists. split; [reflexivity|]. split; [reflexivity|]. split; [reflexivity|exact B].
Qed.

(** ** Events handled while a handler waits *)

(** X5: [uploadAndVerify] is suspended at its [await]s, and the Clear
    button stays enabled meanwhile. When the analysis of a selected
    file is started, Clear is clicked, and then the analysis goes on,
    whatever answers it, it sets the result and [loading] only: the
    state ends with no file, hash, preview or error and with the
    verdict on the file that was cleared (the reply's body, or the
    result of [mockVerify] on that file). Unless that value is [null],
    this is a state the component is never in when each handler ends
    before the next event; over this endpoint behind a network that at
    most alters the form, the value is always a status "ok" result. *)
Theorem clear_during_analysis (backend : Backend) (f : File) (p : option File)
    (h : option string) (res : JSON) (err : option string) (w : World) :
  let started := uploadAndVerify_starts (mkUI (Some f) p h false res err) in
  let sent := runState (backend (mkForm (Some f) (if truthy h then h else None))) w in
  let mock := fst (runState (mockVerify f h) (snd sent)) in
  let verdict := match fst sent with
                 | Replies code (Some json) =>
                     if (200 <=? code) && (code <=? 299) then json else JSON_of_result mock
                 | _ => JSON_of_result mock
                 end in
  let ui' := fst (runState (uploadAndVerify_settles backend (mkUpload f h)
                              (clearAll (fst started))) w) in
  started = (mkUI (Some f) p h true JNull None, Some (mkUpload f h))
  /\ ui' = mkUI None None None false verdict None
  /\ (verdict <> JNull -> ~ at_rest ui')
  /\ (forall net, backend = endpoint_behind net ->
        (exists r, verdict = JSON_of_result r /\ status r = "ok") /\ ~ at_rest ui').
Proof.
  cbn zeta.
  assert (E : fst (runState (uploadAndVerify_settles backend (mkUpload f h)
                      (clearAll (fst (uploadAndVerify_starts
                                        (mkUI (Some f) p h false res err))))) w)
              = mkUI None None None false
                     match fst (runState (backend (mkForm (Some f)
                                                     (if truthy h then h else None))) w) with
                     | Replies code (Some json) =>
                         if (200 <=? code) && (code <=? 299) then json
                         else JSON_of_result
                                (fst (runState (mockVerify f h)
                                        (snd (runState (backend (mkForm (Some f)
                                               (if truthy h then h else None))) w))))
                     | _ => JSON_of_result
                              (fst (runState (mockVerify f h)
                                      (snd (runState (backend (mkForm (Some f)
                                             (if truthy h then h else None))) w))))
                     end None).
  { rewrite uploadAndVerify_settles_run. cbn zeta. cbn [up_file up_hash].
    destruct (fst (runState (backend _) w)) as [|code [json|]];
      try destruct ((200 <=? code) && (code <=? 299)); reflexivity. }
  assert (N : forall v, v <> JNull -> ~ at_rest (mkUI None None None false v None)).
  { intros v V (_ & _ & _ & R & _). exact (V R). }
  split; [reflexivity|]. split; [exact E|]. split.
  - intros V. rewrite E. apply N, V.
  - intros net ->. rewrite E.
    pose proof (endpoint_reply net (mkForm (Some f) (if truthy h then h else None)) w) as R.
    assert (X : exists r,
               match fst (runState (endpoint_behind net (mkForm (Some f)
                                     (if truthy h then h else None))) w) with
               | Replies code (Some json) =>
                   if (200 <=? code) && (code <=? 299) then json
                   else JSON_of_result
                          (fst (runState (mockVerify f h)
                                  (snd (runState (endpoint_behind net (mkForm (Some f)
                                         (if truthy h then h else None))) w))))
               | _ => JSON_of_result
                        (fst (runState (mockVerify f h)
                                (snd (runState (endpoint_behind net (mkForm (Some f)
                                       (if truthy h then h else None))) w))))
               end = JSON_of_result r /\ status r = "ok").
    { destruct (fst (runState (endpoint_behind net _) w)) as [|code json].
      - eexists. split; [reflexivity|]. apply mockVerify_echo.
      - destruct R as [(-> & s & m & ->)|(-> & r & -> & S)].
        + eexists. split; [reflexivity|]. apply mockVerify_echo.
        + exists r. split; [reflexivity|exact S]. }
    split; [exact X|]. destruct X as (r & -> & _). apply N. discriminate.
Qed.

(** X13: [handleFiles] is suspended while the browser hashes the file,
    and files can be dropped or picked meanwhile. When a file [f] is
    taken, then a file [g] of another content while [f] is still being
    hashed, and the hash of [g] arrives before that of [f], the state
    ends with the file [g] and the hash of [f]: each [handleFiles] sets
    the hash of its own file, whatever file is selected by then. The
    analysis that follows sends [g] with the hash of [f]; this
    endpoint, reached unaltered, rejects it as tampered, and the
    component shows the mock's status "ok" result for [g], with the
    hash of [f]. *)
Theorem hashes_settle_out_of_order (f g : File) (rf rg : list File)
    (pf pg : bool) (ui : UI) (w : World) :
  computeSHA256 f <> computeSHA256 g ->
  let ui1 := fst (handleFiles_starts pf (f :: rf) ui) in
  let ui2 := fst (handleFiles_starts pg (g :: rg) ui1) in
  let ui3 := handleFiles_settles true g ui2 in
  let ui4 := handleFiles_settles true f ui3 in
  let mock := fst (runState (mockVerify g (Some (computeSHA256 f))) w) in
  (snd (handleFiles_starts pf (f :: rf) ui) = Some f
   /\ snd (handleFiles_starts pg (g :: rg) ui1) = Some g)
  /\ (ui_file ui4 = Some g /\ ui_hash ui4 = Some (computeSHA256 f)
      /\ ui_loading ui4 = false /\ ui_error ui4 = None /\ ui_result ui4 = JNull)
  /\ ~ at_rest ui4
  /\ fst (runState (endpoint_behind faithful
                      (mkForm (Some g) (Some (computeSHA256 f)))) w)
     = Replies 400 (Some (JSON_of (ErrorJson "error" "Hash mismatch - file may be tampered")))
  /\ ui_result (fst (runState (uploadAndVerify_over (endpoint_behind faithful) ui4) w))
     = JSON_of_result mock
  /\ status mock = "ok"
  /\ hash mock = Some (computeSHA256 f)
  /\ String.prefix "PLS-MOCK-" (polarisId mock) = true.
Proof.
  intros D. cbn zeta.
  assert (G : gate_rejects (Some (computeSHA256 f)) (serverHash_of (bytes g)) = true).
  { unfold gate_rejects. rewrite truthy_computeSHA256. cbn [andb strict_neq].
    apply negb_true_iff, String.eqb_neq. now rewrite <- computeSHA256_server. }
  assert (R : runState (endpoint_behind faithful
                          (mkForm (Some g) (Some (computeSHA256 f)))) w
              = (Replies 400 (Some (JSON_of (ErrorJson "error"
                                               "Hash mismatch - file may be tampered"))), w)).
  { unfold endpoint_behind, faithful, fetch. cbn [bind ret Monad_state runState].
    rewrite POST_rejected by exact G. reflexivity. }
  split; [split; reflexivity|]. split; [repeat split|]. split.
  - unfold at_rest, handleFiles_settles, handleFiles_starts.
    cbn [fst ui_file ui_hash ui_loading ui_previewUrl ui_result ui_error].
    intros (_ & _ & [H|H] & _); [discriminate|]. injection H as H. exact (D H).
  - split; [now rewrite R|]. split; [|apply mockVerify_echo].
    unfold handleFiles_settles, handleFiles_starts.
    cbn [fst ui_file ui_hash ui_loading ui_previewUrl ui_result ui_error].
    rewrite uploadAndVerify_over_run. cbn zeta.
    rewrite truthy_computeSHA256, R. reflexivity.
Qed.

Lemma hashes_settle_out_of_order_witness :
  computeSHA256 demo <> computeSHA256 empty_file
  /\ ui_file (handleFiles_settles true demo
                (handleFiles_settles true empty_file
                   (fst (handleFiles_starts true [empty_file]
                           (fst (handleFiles_starts true [demo] mounted))))))
     = Some empty_file
  /\ ui_hash (handleFiles_settles true demo
                (handleFiles_settles true empty_file
                   (fst (handleFiles_starts true [empty_file]
                           (fst (handleFiles_starts true [demo] mounted))))))
     = Some (computeSHA256 demo).
Proof.
  assert (D : computeSHA256 demo <> computeSHA256 empty_file) by (vm_compute; discriminate).
  split; [exact D|].
  pose proof (hashes_settle_out_of_order demo empty_file [] [] true true mounted (steady 0) D)
    as H.
  cbn zeta in H. destruct H as (_ & (F & H & _) & _). split; [exact F|exact H].
Defined.

(** ** Canonical results *)

Lemma digits2_pos_unique (p : positive) (d : Z) :
  2 ^ (d - 1) <= Zpos p < 2 ^ d -> Zpos (digits2_pos p) = d.
Proof.
  intros [L U]. destruct (digits2_pos_bounds p) as [L' U'].
  assert (0 < d).
  { destruct (Z_lt_le_dec 0 d) as [|N]; [assumption|].
    assert (2 ^ d <= 2 ^ 0) by (apply Z.pow_le_mono_r; lia). change (2 ^ 0) with 1 in *. lia. }
  assert (Zpos (digits2_pos p) - 1 < d).
  { apply (Z.pow_lt_mono_r_iff 2); lia. }
  assert (d - 1 < Zpos (digits2_pos p)).
  { apply (Z.pow_lt_mono_r_iff 2); lia. }
  lia.
Qed.

Lemma canonical_bounded (m : positive) (e : Z) :
  canonical m e <-> SpecFloat.bounded JSNumber.prec JSNumber.emax m e = true.
Proof.
  unfold SpecFloat.bounded, canonical_mantissa, fexp, emin, JSNumber.prec, JSNumber.emax.
  rewrite andb_true_iff, Z.eqb_eq, Z.leb_le.
  destruct (digits2_pos_bounds m) as [L U]. set (d := Zpos (digits2_pos m)) in *.
  assert (D0 : 0 < d) by (subst d; lia).
  split.
  - intros [[[A B] E]|[A E]].
    + assert (d = 53) by (apply digits2_pos_unique; change (53 - 1) with 52; lia). lia.
    + assert (d <= 52).
      { assert (d - 1 < 52); [|lia]. apply (Z.pow_lt_mono_r_iff 2); lia. }
      lia.
  - intros [C E]. destruct (Z.eq_dec d 53) as [D|D].
    + left. rewrite D in *. change (53 - 1) with 52 in L. lia.
    + right. assert (d <= 52) by lia. split; [|lia].
      eapply Z.lt_le_trans; [exact U|]. apply Z.pow_le_mono_r; lia.
Qed.

Lemma binary_round_aux_canonical (mx : positive) (ex : Z) (m : positive) (e : Z) :
  2 ^ 52 <= Zpos mx ->
  binary_round_aux JSNumber.prec JSNumber.emax false (Zpos mx) ex loc_Exact
  = S754_finite false m e ->
  canonical m e.
Proof.
  intros Hmx. unfold binary_round_aux.
  destruct (shr_fexp_floor (Zpos mx) ex loc_Exact ltac:(lia)) as [M1 E1].
  destruct (shr_fexp JSNumber.prec JSNumber.emax (Zpos mx) ex loc_Exact) as [mrs' e'].
  cbn [fst snd] in M1, E1.
  set (n1 := Z.max 0 (fexp JSNumber.prec JSNumber.emax (Zdigits2 (Zpos mx) + ex) - ex)) in *.
  pose proof (digits2_pos_bounds mx) as [DL DU].
  set (d := Zpos (digits2_pos mx)) in *.
  assert (Hd : 53 <= d).
  { assert (52 < d); [|lia]. apply (Z.pow_lt_mono_r_iff 2); lia. }
  assert (Hn1 : n1 = Z.max (d - 53) (-1074 - ex)).
  { subst n1. unfold fexp, emin, JSNumber.prec, JSNumber.emax. cbn [Zdigits2]. fold d. lia. }
  pose proof (round_nearest_even_step (shr_m mrs') (loc_of_shr_record mrs')) as R.
  set (m1r := round_nearest_even (shr_m mrs') (loc_of_shr_record mrs')) in *.
  set (m1 := Zpos mx / 2 ^ n1) in *. rewrite M1 in R.
  assert (P1 : 0 < 2 ^ n1) by (apply Z.pow_pos_nonneg; lia).
  assert (A0 : 0 <= m1) by (apply Z.div_pos; lia).
  assert (A3 : m1 < 2 ^ 53).
  { apply Z.div_lt_upper_bound; [lia|]. rewrite <- Z.pow_add_r by lia.
    eapply Z.lt_le_trans; [exact DU|]. apply Z.pow_le_mono_r; lia. }
  assert (A4 : n1 = d - 53 -> 2 ^ 52 <= m1).
  { intros ->. apply Z.div_le_lower_bound; [lia|]. rewrite <- Z.pow_add_r by lia.
    replace (d - 53 + 52) with (d - 1) by lia. exact DL. }
  assert (A5 : d - 53 < n1 -> m1 < 2 ^ 52).
  { intros Lt. apply Z.div_lt_upper_bound; [lia|]. rewrite <- Z.pow_add_r by lia.
    eapply Z.lt_le_trans; [exact DU|]. apply Z.pow_le_mono_r; lia. }
  destruct (shr_fexp_floor m1r e' loc_Exact ltac:(lia)) as [M2 E2].
  destruct (shr_fexp JSNumber.prec JSNumber.emax m1r e' loc_Exact) as [mrs'' e''].
  cbn [fst snd] in M2, E2.
  set (n2 := Z.max 0 (fexp JSNumber.prec JSNumber.emax (Zdigits2 m1r + e') - e')) in *.
  rewrite M2. intros Res.
  assert (Dg : forall x k, 0 < x -> 2 ^ (k - 1) <= x < 2 ^ k -> Zdigits2 x = k).
  { intros x k X B. destruct x as [|q|q]; try lia. cbn [Zdigits2].
    now apply digits2_pos_unique. }
  assert (Cases : (m1r < 2 ^ 53 /\ 2 ^ 52 <= m1r /\ n1 = d - 53)
                  \/ (m1r = 2 ^ 53 /\ n1 = d - 53)
                  \/ (m1r <= 2 ^ 52 /\ d - 53 < n1)) by lia.
  destruct Cases as [(C1 & C2 & C3)|[(C1 & C3)|(C1 & C3)]].
  - assert (G : Zdigits2 m1r = 53) by (apply Dg; change (53 - 1) with 52; lia).
    assert (N2 : n2 = 0).
    { subst n2. rewrite G. unfold fexp, emin, JSNumber.prec, JSNumber.emax. lia. }
    rewrite N2 in *. change (2 ^ 0) with 1 in Res. rewrite Z.div_1_r in Res.
    destruct m1r as [|q|q]; try lia.
    destruct (e'' <=? JSNumber.emax - JSNumber.prec) eqn:Le; [|discriminate].
    injection Res as <- <-. apply Z.leb_le in Le. unfold JSNumber.emax, JSNumber.prec in Le.
    left. lia.
  - assert (G : Zdigits2 m1r = 54) by (rewrite C1; reflexivity).
    assert (N2 : n2 = 1).
    { subst n2. rewrite G. unfold fexp, emin, JSNumber.prec, JSNumber.emax. lia. }
    rewrite N2, C1 in *. change (2 ^ 53 / 2 ^ 1) with (Zpos 4503599627370496) in Res.
    destruct (e'' <=? JSNumber.emax - JSNumber.prec) eqn:Le; [|discriminate].
    injection Res as <- <-. apply Z.leb_le in Le. unfold JSNumber.emax, JSNumber.prec in Le.
    left. change (2 ^ 52) with 4503599627370496. change (2 ^ 53) with 9007199254740992. lia.
  - assert (G : Zdigits2 m1r <= 53).
    { destruct m1r as [|q|q]; cbn [Zdigits2]; try lia.
      destruct (digits2_pos_bounds q) as [L _].
      assert (Zpos (digits2_pos q) - 1 <= 52); [|lia].
      apply (Z.pow_le_mono_r_iff 2); lia. }
    assert (G0 : 0 <= Zdigits2 m1r) by (destruct m1r; cbn [Zdigits2]; lia).
    assert (N2 : n2 = 0).
    { subst n2. unfold fexp, emin, JSNumber.prec, JSNumber.emax. lia. }
    rewrite N2 in *. change (2 ^ 0) with 1 in Res. rewrite Z.div_1_r in Res.
    destruct m1r as [|q|q]; try lia; try discriminate.
    destruct (e'' <=? JSNumber.emax - JSNumber.prec) eqn:Le; [|discriminate].
    injection Res as <- <-.
    destruct (Z.eq_dec (Zpos q) (2 ^ 52)) as [Q|Q].
    + left. change (2 ^ 53) with 9007199254740992. change (2 ^ 52) with 4503599627370496 in *. lia.
    + right. lia.
Qed.

Lemma add_canonical (mx my : positive) (ex ey : Z) (m : positive) (e : Z) :
  2 ^ 52 <= Zpos mx ->
  JSNumber.add (S754_finite false mx ex) (S754_finite false my ey) = S754_finite false m e ->
  canonical m e.
Proof.
  intros Hmx. unfold JSNumber.add, SFadd. cbn [cond_Zopp].
  set (ez := Z.min ex ey).
  destruct (shl_align_value mx ex ez) as (_ & Lx & _).
  set (a := fst (shl_align mx ex ez)) in *. set (b := fst (shl_align my ey ez)) in *.
  change (Zpos a + Zpos b) with (Zpos (a + b)).
  cbn [binary_normalize]. unfold binary_round.
  destruct (shl_align_value (a + b) ez
              (fexp JSNumber.prec JSNumber.emax (Zpos (digits2_pos (a + b)) + ez)))
    as (_ & Lz & _).
  destruct (shl_align (a + b) ez
              (fexp JSNumber.prec JSNumber.emax (Zpos (digits2_pos (a + b)) + ez)))
    as [mz ez'].
  cbn [fst snd] in Lz. apply binary_round_aux_canonical. lia.
Qed.

Lemma canonical_half_to_one (m : positive) (e : Z) :
  canonical m e ->
  (1 / 2 < F2R (Zpos m) e < 1)%R ->
  e = -53 /\ 2 ^ 52 <= Zpos m < 2 ^ 53.
Proof.
  intros C [Lo Hi]. unfold F2R in *.
  assert (P : (0 < bpow e)%R) by apply bpow_pos.
  destruct C as [[[A B] E]|[A E]].
  - split; [|lia]. apply IZR_le in A. apply IZR_lt in B.
    rewrite <- bpow_IZR in A, B by lia.
    assert (e < -52).
    { assert (52 + e < 0); [|lia]. apply bpow_lt_inv. rewrite bpow_add.
      change (bpow 0) with 1%R. pose proof (Rmult_le_compat_r _ _ _ (Rlt_le _ _ P) A). lra. }
    assert (-54 < e).
    { assert (-1 < 53 + e); [|lia]. apply bpow_lt_inv. rewrite bpow_add.
      replace (bpow (-1)) with (1 / 2)%R
        by (rewrite (bpow_neg 1 ltac:(lia) : bpow (-1) = _); change (2 ^ 1) with 2; lra).
      pose proof (Rmult_lt_compat_r _ _ _ P B). lra. }
    lia.
  - exfalso. subst e. apply IZR_lt in A. rewrite <- bpow_IZR in A by lia.
    pose proof (Rmult_lt_compat_r _ _ _ P A) as K. rewrite <- bpow_add in K.
    assert (bpow (52 + -1074) <= bpow (-1))%R by (apply bpow_le; lia).
    replace (bpow (-1)) with (1 / 2)%R in *
      by (rewrite (bpow_neg 1 ltac:(lia) : bpow (-1) = _); change (2 ^ 1) with 2; lra).
    lra.
Qed.

(** The score before rounding is, for every random draw, a Number
    [m * 2^-53] with 53 bits of mantissa, between 0.599 and 0.951. *)
Lemma randomScore_form (r : number) :
  unit_interval r = true ->
  exists m, randomScore_of r = S754_finite false m (-53)
            /\ 2 ^ 52 <= Zpos m < 2 ^ 53
            /\ 599 * 2 ^ 53 < 1000 * Zpos m < 951 * 2 ^ 53.
Proof.
  intros H. destruct (randomScore_range r H) as (m & e & E & B).
  assert (C : canonical m e).
  { destruct (unit_interval_cases r H) as [[s ->]|(mr & er & -> & Hr)].
    - replace (randomScore_of (S754_zero s)) with JSNumber.lit_0_6 in E
        by (destruct s; reflexivity).
      injection E as <- <-. left. change (2 ^ 52) with 4503599627370496.
      change (2 ^ 53) with 9007199254740992. lia.
    - unfold randomScore_of in E.
      destruct (mul_value mr 6305039478318694 er (-54)) as [Np _]; [lia| |].
      { pose proof value_lit_0_35.
        change (F2R (Zpos 6305039478318694) (-54)) with (value JSNumber.lit_0_35).
        assert (0 < F2R (Zpos mr) er)%R
          by (unfold F2R; apply Rmult_lt_0_compat; [apply IZR_lt; lia|apply bpow_pos]).
        nra. }
      change (S754_finite false 6305039478318694 (-54)) with JSNumber.lit_0_35 in Np.
      destruct Np as [Ep|(mp & ep & Ep)]; rewrite Ep in E.
      + change (JSNumber.add JSNumber.lit_0_6 (S754_zero false)) with JSNumber.lit_0_6 in E.
        injection E as <- <-. left. change (2 ^ 52) with 4503599627370496.
        change (2 ^ 53) with 9007199254740992. lia.
      + apply (add_canonical 5404319552844595 mp (-53) ep); [lia|exact E]. }
  destruct (canonical_half_to_one m e C ltac:(lra)) as [-> Bm].
  exists m. split; [exact E|]. split; [exact Bm|].
  unfold F2R in B. rewrite bpow_m53 in B.
  assert (RP : (0 < IZR (2 ^ 53))%R) by (apply IZR_lt; reflexivity).
  destruct B as [Lo Hi].
  apply Rmult_lt_compat_r with (r := IZR (2 ^ 53)) in Lo; [|exact RP].
  apply Rmult_lt_compat_r with (r := IZR (2 ^ 53)) in Hi; [|exact RP].
  rewrite Rmult_assoc, Rinv_l in Lo, Hi by lra.
  split; apply lt_IZR; rewrite !mult_IZR; lra.
Qed.

(** ** Exact results *)

(** A mantissa of at most 53 bits is not rounded: [binary_round] only
    shifts it left to 53 bits. *)
Lemma binary_round_exact (mx : positive) (ex : Z) :
  let d := Zpos (digits2_pos mx) in
  d <= 53 -> -1074 <= d + ex - 53 <= 971 ->
  exists mz, binary_round JSNumber.prec JSNumber.emax false mx ex
             = S754_finite false mz (d + ex - 53)
             /\ Zpos mz = Zpos mx * 2 ^ (53 - d).
Proof.
  intros d D E. unfold binary_round.
  assert (F : fexp JSNumber.prec JSNumber.emax (Zpos (digits2_pos mx) + ex) = d + ex - 53).
  { unfold fexp, emin, JSNumber.prec, JSNumber.emax. fold d. lia. }
  rewrite F.
  destruct (digits2_pos_bounds mx) as [L U]. fold d in L, U.
  assert (P : 0 < 2 ^ (53 - d)) by (apply Z.pow_pos_nonneg; lia).
  assert (S : exists mz, shl_align mx ex (d + ex - 53) = (mz, d + ex - 53)
                         /\ Zpos mz = Zpos mx * 2 ^ (53 - d)).
  { unfold shl_align. destruct (d + ex - 53 - ex) as [|k|k] eqn:K.
    - exists mx. assert (d = 53) by lia. split; [f_equal; lia|].
      replace (53 - d) with 0 by lia. lia.
    - lia.
    - exists (Pos.iter xO mx k). split; [reflexivity|].
      rewrite iter_xO. f_equal. f_equal. lia. }
  destruct S as (mz & -> & Vz). exists mz. split; [|exact Vz].
  assert (B : 2 ^ 52 <= Zpos mz < 2 ^ 53).
  { rewrite Vz. split.
    - replace 52 with (d - 1 + (53 - d)) by lia. rewrite Z.pow_add_r by lia. nia.
    - replace 53 with (d + (53 - d)) at 2 by lia. rewrite Z.pow_add_r by lia. nia. }
  assert (G : Zpos (digits2_pos mz) = 53)
    by (apply digits2_pos_unique; change (53 - 1) with 52; exact B).
  unfold binary_round_aux, shr_fexp. cbn [Zdigits2 shr_record_of_loc].
  rewrite G.
  replace (fexp JSNumber.prec JSNumber.emax (53 + (d + ex - 53)) - (d + ex - 53)) with 0
    by (unfold fexp, emin, JSNumber.prec, JSNumber.emax; lia).
  cbn [shr shr_m loc_of_shr_record round_nearest_even Zdigits2 shr_record_of_loc].
  rewrite G.
  replace (fexp JSNumber.prec JSNumber.emax (53 + (d + ex - 53)) - (d + ex - 53)) with 0
    by (unfold fexp, emin, JSNumber.prec, JSNumber.emax; lia).
  cbn [shr shr_m].
  replace (d + ex - 53 <=? JSNumber.emax - JSNumber.prec) with true; [reflexivity|].
  symmetry. apply Z.leb_le. unfold JSNumber.emax, JSNumber.prec. lia.
Qed.

Lemma nearest_hundredths_shift (m mz : positive) (j p : positive) :
  Zpos mz = Zpos m * 2 ^ Zpos j ->
  JSNumber.nearest_hundredths mz (Zneg (p + j)) = JSNumber.nearest_hundredths m (Zneg p).
Proof.
  intros E. unfold JSNumber.nearest_hundredths. rewrite E, Pos2Z.inj_add.
  replace (Zpos p + Zpos j + 1) with (Zpos p + 1 + Zpos j) by lia.
  rewrite !Z.pow_add_r by lia.
  assert (0 < 2 ^ Zpos j) by (apply Z.pow_pos_nonneg; lia).
  assert (0 < 2 ^ Zpos p) by (apply Z.pow_pos_nonneg; lia).
  replace (200 * (Zpos m * 2 ^ Zpos j) + 2 ^ Zpos p * 2 ^ Zpos j)
    with ((200 * Zpos m + 2 ^ Zpos p) * 2 ^ Zpos j) by ring.
  apply Z.div_mul_cancel_r; lia.
Qed.

(** [1 - s] is computed without rounding for every [s = m * 2^-53] of 53
    bits below one, and its two-decimal text counts the hundredths of
    [(2^53 - m) * 2^-53]. *)
Lemma aiProb_exact (m : positive) :
  2 ^ 52 < Zpos m < 2 ^ 53 ->
  JSNumber.toFixed2 (aiProb_of (S754_finite false m (-53)))
  = JSNumber.Hundredths false ((200 * (2 ^ 53 - Zpos m) + 2 ^ 53) / 2 ^ 54).
Proof.
  intros B. unfold aiProb_of, JSNumber.sub, JSNumber.lit_1, SFsub.
  cbn [cond_Zopp]. change (Z.min (-52) (-53)) with (-53).
  change (fst (shl_align 4503599627370496 (-52) (-53))) with 9007199254740992%positive.
  change (fst (shl_align m (-53) (-53))) with m.
  assert (D : exists q, Zpos 9007199254740992 - Zpos m = Zpos q).
  { destruct (Zpos 9007199254740992 - Zpos m) as [|q|q] eqn:E; [| eauto |];
      change (2 ^ 53) with 9007199254740992 in B; lia. }
  destruct D as [q Q]. rewrite Q. cbn [binary_normalize].
  change (Zpos 9007199254740992) with (2 ^ 53) in Q.
  destruct (digits2_pos_bounds q) as [L U]. set (d := Zpos (digits2_pos q)) in *.
  assert (D52 : d <= 52).
  { assert (d - 1 < 52); [|lia]. apply (Z.pow_lt_mono_r_iff 2); [lia|lia|].
    change (2 ^ 52) with 4503599627370496 in *. change (2 ^ 53) with 9007199254740992 in *. lia. }
  assert (D0 : 1 <= d) by (subst d; lia).
  destruct (binary_round_exact q (-53)) as (mz & -> & Vz); fold d; [lia|lia|].
  fold d in Vz.
  assert (J : exists j, 53 - d = Zpos j) by (destruct (53 - d) as [|j|j] eqn:E; [lia|eauto|lia]).
  destruct J as [j J]. rewrite J in Vz.
  replace (d + -53 - 53) with (Zneg (53 + j)) by lia.
  unfold JSNumber.toFixed2.
  replace (JSNumber.at_least_1e21 mz (Zneg (53 + j))) with false.
  - rewrite (nearest_hundredths_shift q mz j 53 Vz).
    unfold JSNumber.nearest_hundredths. rewrite <- Q. reflexivity.
  - symmetry. unfold JSNumber.at_least_1e21. apply Z.leb_gt.
    assert (0 < 2 ^ Zpos (53 + j)) by (apply Z.pow_pos_nonneg; lia).
    assert (Zpos mz < 2 ^ Zpos (53 + j)).
    { rewrite Vz, Pos2Z.inj_add, Z.pow_add_r by lia.
      assert (0 < 2 ^ Zpos j) by (apply Z.pow_pos_nonneg; lia).
      change (2 ^ 53) with 9007199254740992 in *. nia. }
    change (10 ^ 21) with 1000000000000000000000. nia.
Qed.

(** ** The fields of a result *)

Lemma toFixed2_score (m : positive) :
  2 ^ 52 <= Zpos m < 2 ^ 53 ->
  JSNumber.toFixed2 (S754_finite false m (-53))
  = JSNumber.Hundredths false ((200 * Zpos m + 2 ^ 53) / 2 ^ 54).
Proof.
  intros B. unfold JSNumber.toFixed2, JSNumber.at_least_1e21, JSNumber.nearest_hundredths.
  replace (10 ^ 21 * 2 ^ 53 <=? Zpos m) with false; [reflexivity|].
  symmetry. apply Z.leb_gt. change (2 ^ 53) with 9007199254740992 in *.
  change (10 ^ 21) with 1000000000000000000000. lia.
Qed.

Lemma gt_score (m c : positive) :
  JSNumber.gt (S754_finite false m (-53)) (S754_finite false c (-53)) = true
  <-> Zpos c < Zpos m.
Proof.
  unfold JSNumber.gt, SFltb. cbn [SFcompare Z.compare Pos.compare Pos.compare_cont].
  change (PosDef.Pos.compare_cont Eq c m) with (Pos.compare c m).
  destruct (Pos.compare_spec c m) as [E|E|E]; split; intros H; try discriminate;
    try reflexivity; lia.
Qed.

Lemma hundredths_table (n : Z) (lo hi : Z) (P : Z -> bool) :
  forallb (fun i => P (lo + Z.of_nat i)) (seq 0 (Z.to_nat (hi - lo + 1))) = true ->
  lo <= n <= hi -> P n = true.
Proof.
  intros All H. rewrite forallb_forall in All.
  specialize (All (Z.to_nat (n - lo))).
  replace (lo + Z.of_nat (Z.to_nat (n - lo))) with n in All by lia.
  apply All. apply in_seq. lia.
Qed.

Lemma report_of_hundredths (n k : Z) (r : VerifyResult) :
  60 <= n <= 95 -> 5 <= k <= 40 ->
  authenticityScore r = JSNumber.decimal n 2 ->
  aiProbability r = JSNumber.decimal k 2 ->
  report_percent (ResultJson r) = Some n
  /\ report_aiProbability (ResultJson r) = JSNumber.Hundredths false k.
Proof.
  intros Hn Hk En Ek. unfold report_percent, report_aiProbability. rewrite En, Ek. split.
  - set (P := fun x => match Math_round (JSNumber.mul (JSNumber.decimal x 2) lit_100) with
                        | Some z => z =? x
                        | None => false
                        end).
    assert (T : P n = true)
      by (apply (hundredths_table n 60 95 P); [vm_compute; reflexivity|exact Hn]).
    subst P. cbn beta in T. destruct (Math_round _) as [z|]; [|discriminate].
    apply Z.eqb_eq in T. now subst.
  - set (P := fun x => fixed2_eqb (JSNumber.toFixed2 (JSNumber.decimal x 2))
                                  (JSNumber.Hundredths false x)).
    assert (T : P k = true)
      by (apply (hundredths_table k 5 40 P); [vm_compute; reflexivity|exact Hk]).
    subst P. cbn beta in T. destruct (JSNumber.toFixed2 _) as [s z|]; [|discriminate].
    cbn [fixed2_eqb] in T. apply andb_true_iff in T. destruct T as [S Z0].
    destruct s; [discriminate|]. apply Z.eqb_eq in Z0. now subst.
Qed.

Lemma Number_hundredths (n : Z) :
  0 < n -> JSNumber.Number (JSNumber.Hundredths false n) = JSNumber.decimal n 2.
Proof. destruct n; try lia. reflexivity. Qed.

Lemma score_fields (r0 : number) (res : VerifyResult) :
  unit_interval r0 = true ->
  authenticityScore res = round2 (randomScore_of r0) ->
  aiProbability res = round2 (aiProb_of (randomScore_of r0)) ->
  message res = message_of (randomScore_of r0) ->
  complementary_hundredths res /\ report_shows_fields res /\ label_matches_score res.
Proof.
  intros H Ea Ep Em. destruct (randomScore_form r0 H) as (m & E & B & R).
  rewrite E in *. unfold round2 in *.
  rewrite toFixed2_score in Ea by exact B.
  rewrite aiProb_exact in Ep by (change (2 ^ 52) with 4503599627370496 in *;
                                 change (2 ^ 53) with 9007199254740992 in *; lia).
  set (n := (200 * Zpos m + 2 ^ 53) / 2 ^ 54) in *.
  set (k := (200 * (2 ^ 53 - Zpos m) + 2 ^ 53) / 2 ^ 54) in *.
  pose proof (Z.div_mod (200 * Zpos m + 2 ^ 53) (2 ^ 54) ltac:(discriminate)) as Dn.
  pose proof (Z.mod_pos_bound (200 * Zpos m + 2 ^ 53) (2 ^ 54) ltac:(reflexivity)) as Rn.
  pose proof (Z.div_mod (200 * (2 ^ 53 - Zpos m) + 2 ^ 53) (2 ^ 54) ltac:(discriminate)) as Dk.
  pose proof (Z.mod_pos_bound (200 * (2 ^ 53 - Zpos m) + 2 ^ 53) (2 ^ 54) ltac:(reflexivity))
    as Rk.
  fold n in Dn. fold k in Dk.
  set (rn := (200 * Zpos m + 2 ^ 53) mod 2 ^ 54) in *.
  set (rk := (200 * (2 ^ 53 - Zpos m) + 2 ^ 53) mod 2 ^ 54) in *.
  change (2 ^ 54) with 18014398509481984 in *. change (2 ^ 53) with 9007199254740992 in *.
  change (2 ^ 52) with 4503599627370496 in *.
  assert (Hn : 60 <= n <= 95) by lia.
  assert (Hk : 5 <= k <= 40) by lia.
  assert (Sum : n + k = 100 \/ (n = 63 /\ k = 38) \/ (n = 88 /\ k = 13)).
  { assert (S0 : n + k = 100 \/ (n + k = 101 /\ rn = 0)) by lia.
    destruct S0 as [S0|[S0 Z0]]; [now left|right].
    assert (Zpos m = 5629499534213120 \/ Zpos m = 7881299347898368) by lia. lia. }
  rewrite Number_hundredths in Ea, Ep by lia.
  split; [|split].
  - exists n, k. repeat split; try assumption; lia.
  - exists n, k. destruct (report_of_hundredths n k res Hn Hk Ea Ep) as [P1 P2].
    repeat split; try assumption; lia.
  - exists n. split; [exact Ea|]. rewrite Em. unfold message_of.
    destruct (JSNumber.gt (S754_finite false m (-53)) JSNumber.lit_0_8) eqn:G8.
    + left. split; [reflexivity|]. apply gt_score in G8. lia.
    + assert (N8 : ~ 7205759403792794 < Zpos m)
        by (intros C; apply (gt_score m 7205759403792794) in C;
            unfold JSNumber.lit_0_8 in G8; congruence).
      destruct (JSNumber.gt (S754_finite false m (-53)) JSNumber.lit_0_65) eqn:G65.
      * right. left. split; [reflexivity|]. apply gt_score in G65. lia.
      * assert (N65 : ~ 5854679515581645 < Zpos m)
          by (intros C; apply (gt_score m 5854679515581645) in C;
              unfold JSNumber.lit_0_65 in G65; congruence).
        right. right. split; [reflexivity|]. lia.
Qed.

Lemma mockVerify_fields (file : File) (h : option string) (w : World) :
  authenticityScore (fst (runState (mockVerify file h) w))
  = round2 (randomScore_of (entropy w (draws w)))
  /\ aiProbability (fst (runState (mockVerify file h) w))
     = round2 (aiProb_of (randomScore_of (entropy w (draws w))))
  /\ message (fst (runState (mockVerify file h) w))
     = message_of (randomScore_of (entropy w (draws w))).
Proof. unfold mockVerify. destruct (existsb _ _); repeat split. Qed.

Lemma scored_results (w : World) (P : VerifyResult -> Prop) :
  (forall res,
      authenticityScore res = round2 (randomScore_of (entropy w (draws w))) ->
      aiProbability res = round2 (aiProb_of (randomScore_of (entropy w (draws w)))) ->
      message res = message_of (randomScore_of (entropy w (draws w))) ->
      P res) ->
  (forall request r, succeeded (fst (runState (POST request) w)) = Some r -> P r)
  /\ (forall file h, P (fst (runState (mockVerify file h) w))).
Proof.
  intros H. split.
  - intros [[file|] c] r; [|rewrite POST_no_file; discriminate].
    destruct (gate_rejects c (serverHash_of (bytes file))) eqn:G;
      [rewrite POST_rejected by assumption; discriminate|].
    rewrite POST_accepted by assumption. cbn [fst succeeded body NextResponse_json].
    intros [= <-]. apply H; reflexivity.
  - intros file h. destruct (mockVerify_fields file h w) as (A & B & C). now apply H.
Qed.



(** X10: the label of a result goes with its score field up to the
    rounding of the score: "Likely Authentic" comes with a score from
    0.80 to 0.95, "Uncertain" with one from 0.65 to 0.80, and "Likely
    AI-generated" with one from 0.60 to 0.65. The ranges meet: the
    label is derived from the score before it is rounded, and the
    score field 0.80 is sent under both of the first two labels. *)
Theorem result_label_matches_score (w : World) :
  fair w ->
  ((forall request r,
       succeeded (fst (runState (POST request) w)) = Some r -> label_matches_score r)
   /\ (forall file h, label_matches_score (fst (runState (mockVerify file h) w))))
  /\ (unit_interval draw_0_58 = true /\ unit_interval draw_0_56 = true
      /\ round2 (randomScore_of draw_0_58) = JSNumber.decimal 80 2
      /\ round2 (randomScore_of draw_0_56) = JSNumber.decimal 80 2
      /\ message_of (randomScore_of draw_0_58) = "Likely Authentic"
      /\ message_of (randomScore_of draw_0_56) = "Uncertain").
Proof.
  intros F. split.
  - apply scored_results. intros res A B C.
    now destruct (score_fields _ res (F (draws w)) A B C) as (_ & _ & K).
  - repeat split; vm_compute; reflexivity.
Qed.

Lemma result_label_matches_score_witness :
  ((forall request r,
       succeeded (fst (runState (POST request) (steady 0))) = Some r ->
       label_matches_score r)
   /\ (forall file h, label_matches_score (fst (runState (mockVerify file h) (steady 0)))))
  /\ (unit_interval draw_0_58 = true /\ unit_interval draw_0_56 = true
      /\ round2 (randomScore_of draw_0_58) = JSNumber.decimal 80 2
      /\ round2 (randomScore_of draw_0_56) = JSNumber.decimal 80 2
      /\ message_of (randomScore_of draw_0_58) = "Likely Authentic"
      /\ message_of (randomScore_of draw_0_56) = "Uncertain").
Proof.
  apply (result_label_matches_score (steady 0)). intros i. vm_compute. reflexivity.
Defined.

(** X11: the report shows the fields of a result as they are: the
    percentage [Math.round(authenticityScore * 100)] is the number of
    hundredths of the score, from 60 to 95, and the text of
    [aiProbability.toFixed(2)] counts the hundredths of that field;
    neither the multiplication by 100 nor the second rounding moves
    them. An error body, which has no score, would show 0 percent. *)
Theorem report_shows_result_fields (w : World) :
  fair w ->
  ((forall request r,
       succeeded (fst (runState (POST request) w)) = Some r -> report_shows_fields r)
   /\ (forall file h, report_shows_fields (fst (runState (mockVerify file h) w))))
  /\ (forall s msg, report_percent (ErrorJson s msg) = Some 0
                    /\ report_aiProbability (ErrorJson s msg) = JSNumber.Hundredths false 0).
Proof.
  intros F. split.
  - apply scored_results. intros res A B C.
    now destruct (score_fields _ res (F (draws w)) A B C) as (_ & K & _).
  - intros s msg. split; reflexivity.
Qed.

Lemma report_shows_result_fields_witness :
  ((forall request r,
       succeeded (fst (runState (POST request) (steady 0))) = Some r ->
       report_shows_fields r)
   /\ (forall file h, report_shows_fields (fst (runState (mockVerify file h) (steady 0)))))
  /\ (forall s msg, report_percent (ErrorJson s msg) = Some 0
                    /\ report_aiProbability (ErrorJson s msg) = JSNumber.Hundredths false 0).
Proof.
  apply (report_shows_result_fields (steady 0)). intros i. vm_compute. reflexivity.
Defined.

(** ** Rounding to nearest *)

Lemma iter_pos_nat {A : Type} (f : A -> A) (n : positive) : forall x : A,
  SpecFloat.iter_pos f n x = Nat.iter (Pos.to_nat n) f x.
Proof.
  induction n as [n IH|n IH|]; intros x; cbn [SpecFloat.iter_pos].
  - rewrite !IH, Pos2Nat.inj_xI.
    replace (S (2 * Pos.to_nat n)) with (Pos.to_nat n + (Pos.to_nat n + 1))%nat by lia.
    rewrite !Nat.iter_add. reflexivity.
  - rewrite !IH, Pos2Nat.inj_xO.
    replace (2 * Pos.to_nat n)%nat with (Pos.to_nat n + Pos.to_nat n)%nat by lia.
    rewrite Nat.iter_add. reflexivity.
  - reflexivity.
Qed.

Lemma shr_1_round_bit (mrs : shr_record) :
  0 <= shr_m mrs -> shr_r (shr_1 mrs) = Z.odd (shr_m mrs).
Proof.
  destruct mrs as [m r s]. cbn [shr_m]. intros H.
  destruct m as [|p|p]; [reflexivity| |lia]. destruct p; reflexivity.
Qed.

Lemma iter_shr_1_round_bit (k : nat) (m : Z) :
  0 <= m ->
  shr_m (Nat.iter k shr_1 (Build_shr_record m false false)) = m / 2 ^ Z.of_nat k
  /\ shr_r (Nat.iter (S k) shr_1 (Build_shr_record m false false))
     = Z.odd (m / 2 ^ Z.of_nat k).
Proof.
  intros H.
  assert (M : forall j, shr_m (Nat.iter j shr_1 (Build_shr_record m false false))
                        = m / 2 ^ Z.of_nat j).
  { induction j as [|j IH].
    - cbn. now rewrite Z.div_1_r.
    - rewrite Nat.iter_succ. rewrite shr_1_half by (rewrite IH; apply Z.div_pos; lia).
      rewrite IH, Z.div_div by lia. rewrite Nat2Z.inj_succ, Z.pow_succ_r by lia.
      f_equal. lia. }
  split; [apply M|]. rewrite Nat.iter_succ.
  rewrite shr_1_round_bit by (rewrite M; apply Z.div_pos; lia). now rewrite M.
Qed.

(** When the mantissa is rounded up, what was shifted out is at least
    half a unit of the result. *)
Lemma shr_fexp_round_up (m e : Z) :
  0 <= m ->
  let n := Z.max 0 (fexp JSNumber.prec JSNumber.emax (Zdigits2 m + e) - e) in
  let mrs := fst (shr_fexp JSNumber.prec JSNumber.emax m e loc_Exact) in
  round_nearest_even (shr_m mrs) (loc_of_shr_record mrs) = shr_m mrs
  \/ (round_nearest_even (shr_m mrs) (loc_of_shr_record mrs) = shr_m mrs + 1
      /\ 1 <= n /\ 2 ^ n * (m / 2 ^ n) + 2 ^ (n - 1) <= m).
Proof.
  intros Hm n mrs. subst mrs. unfold shr_fexp, shr in *. cbn [shr_record_of_loc].
  fold (fexp JSNumber.prec JSNumber.emax (Zdigits2 m + e) - e) in *.
  destruct (fexp JSNumber.prec JSNumber.emax (Zdigits2 m + e) - e) as [|p|p] eqn:E;
    cbn [fst]; try (left; reflexivity).
  rewrite iter_pos_nat.
  destruct (Pos2Nat.is_succ p) as [k K]. rewrite K.
  destruct (iter_shr_1_round_bit (S k) m Hm) as [M _].
  destruct (iter_shr_1_round_bit k m Hm) as [_ R].
  set (mrs := Nat.iter (S k) shr_1 (Build_shr_record m false false)) in *.
  assert (N : n = Z.of_nat (S k)) by (subst n; lia).
  pose proof (round_nearest_even_step (shr_m mrs) (loc_of_shr_record mrs)) as St.
  destruct (Z.eq_dec (round_nearest_even (shr_m mrs) (loc_of_shr_record mrs)) (shr_m mrs))
    as [Q|Q]; [now left|right].
  split; [lia|]. split; [lia|].
  assert (Rt : shr_r mrs = true).
  { destruct mrs as [m' r' s']. cbn [shr_m loc_of_shr_record] in *.
    destruct r'; [reflexivity|]. destruct s'; cbn [round_nearest_even] in Q; contradiction. }
  rewrite R in Rt. rewrite N.
  replace (Z.of_nat (S k) - 1) with (Z.of_nat k) by lia.
  set (q := m / 2 ^ Z.of_nat k) in *.
  assert (P : 0 < 2 ^ Z.of_nat k) by (apply Z.pow_pos_nonneg; lia).
  assert (Dq : m / 2 ^ Z.of_nat (S k) = q / 2).
  { subst q. rewrite Z.div_div by lia. f_equal.
    rewrite Nat2Z.inj_succ, Z.pow_succ_r by lia. lia. }
  rewrite Dq. rewrite Nat2Z.inj_succ, Z.pow_succ_r by lia.
  assert (Oq : q = 2 * (q / 2) + 1).
  { rewrite (Z.div_mod q 2) at 1 by lia. f_equal.
    rewrite Zmod_odd, Rt. reflexivity. }
  assert (Lq : 2 ^ Z.of_nat k * q <= m) by (apply Z.mul_div_le; lia).
  nia.
Qed.

(** The rounding step rounds to nearest: the result exceeds the exact
    value by at most half a unit in the last place. *)
Lemma binary_round_aux_nearest (mx : positive) (ex : Z) :
  2 ^ 52 <= Zpos mx ->
  let n1 := Z.max (Zpos (digits2_pos mx) - 53) (-1074 - ex) in
  exists m n,
    binary_round_aux JSNumber.prec JSNumber.emax false (Zpos mx) ex loc_Exact
    = build m (ex + n)
    /\ 0 <= m /\ 0 <= n1 <= n /\ n <= n1 + 1
    /\ 2 * (m * 2 ^ n) <= 2 * Zpos mx + 2 ^ n1.
Proof.
  intros Hmx n1. unfold binary_round_aux.
  destruct (shr_fexp_floor (Zpos mx) ex loc_Exact ltac:(lia)) as [M1 E1].
  pose proof (shr_fexp_round_up (Zpos mx) ex ltac:(lia)) as Up. cbn zeta in Up.
  destruct (shr_fexp JSNumber.prec JSNumber.emax (Zpos mx) ex loc_Exact) as [mrs' e'].
  cbn [fst snd] in M1, E1, Up.
  pose proof (digits2_pos_bounds mx) as [DL DU].
  set (d := Zpos (digits2_pos mx)) in *.
  assert (Hd : 53 <= d).
  { assert (52 < d); [|lia]. apply (Z.pow_lt_mono_r_iff 2); lia. }
  assert (Hn1 : Z.max 0 (fexp JSNumber.prec JSNumber.emax (Zdigits2 (Zpos mx) + ex) - ex) = n1).
  { subst n1. unfold fexp, emin, JSNumber.prec, JSNumber.emax. cbn [Zdigits2]. fold d. lia. }
  rewrite Hn1 in *.
  assert (N1 : 0 <= n1) by lia.
  set (m1r := round_nearest_even (shr_m mrs') (loc_of_shr_record mrs')) in *.
  set (m1 := Zpos mx / 2 ^ n1) in *. rewrite M1 in Up.
  assert (P1 : 0 < 2 ^ n1) by (apply Z.pow_pos_nonneg; lia).
  assert (A0 : 0 <= m1) by (apply Z.div_pos; lia).
  assert (A1 : 2 ^ n1 * m1 <= Zpos mx) by (apply Z.mul_div_le; lia).
  assert (A3 : m1 < 2 ^ 53).
  { apply Z.div_lt_upper_bound; [lia|]. rewrite <- Z.pow_add_r by lia.
    eapply Z.lt_le_trans; [exact DU|]. apply Z.pow_le_mono_r; lia. }
  assert (A5 : d - 53 < n1 -> m1 < 2 ^ 52).
  { intros Lt. apply Z.div_lt_upper_bound; [lia|]. rewrite <- Z.pow_add_r by lia.
    eapply Z.lt_le_trans; [exact DU|]. apply Z.pow_le_mono_r; lia. }
  assert (R : m1 <= m1r <= m1 + 1) by lia.
  assert (Half : 2 * (m1r * 2 ^ n1) <= 2 * Zpos mx + 2 ^ n1).
  { destruct Up as [Q|(Q & Q1 & Q2)]; rewrite Q; [nia|].
    replace (2 ^ n1) with (2 * 2 ^ (n1 - 1)) in *
      by (rewrite <- Z.pow_succ_r by lia; f_equal; lia). nia. }
  destruct (shr_fexp_floor m1r e' loc_Exact ltac:(lia)) as [M2 E2].
  destruct (shr_fexp JSNumber.prec JSNumber.emax m1r e' loc_Exact) as [mrs'' e''].
  cbn [fst snd] in M2, E2.
  set (n2 := Z.max 0 (fexp JSNumber.prec JSNumber.emax (Zdigits2 m1r + e') - e')) in *.
  assert (Dg : forall x k, 0 < x -> 2 ^ (k - 1) <= x < 2 ^ k -> Zdigits2 x = k).
  { intros x k X B. destruct x as [|q|q]; try lia. cbn [Zdigits2].
    now apply digits2_pos_unique. }
  assert (G54 : Zdigits2 m1r <= 54) by (apply Zdigits2_le_54; lia).
  assert (G0 : 0 <= Zdigits2 m1r) by (destruct m1r; cbn [Zdigits2]; lia).
  assert (Ex : (n2 = 0) \/ (n2 = 1 /\ m1r = 2 ^ 53)).
  { destruct (Z.eq_dec m1r (2 ^ 53)) as [C|C].
    - right. split; [|exact C]. subst n2. rewrite C.
      change (Zdigits2 (2 ^ 53)) with 54.
      unfold fexp, emin, JSNumber.prec, JSNumber.emax. lia.
    - left. assert (G : Zdigits2 m1r <= 53).
      { destruct m1r as [|q|q]; cbn [Zdigits2]; try lia.
        destruct (digits2_pos_bounds q) as [L _].
        assert (Zpos (digits2_pos q) - 1 < 53); [|lia].
        apply (Z.pow_lt_mono_r_iff 2); lia. }
      subst n2. unfold fexp, emin, JSNumber.prec, JSNumber.emax. lia. }
  exists (shr_m mrs''), (n1 + n2). rewrite M2, E2, E1.
  replace (ex + (n1 + n2)) with (ex + n1 + n2) by lia.
  split; [unfold build; destruct (m1r / 2 ^ n2); reflexivity|].
  split; [apply Z.div_pos; [lia|apply Z.pow_pos_nonneg; lia]|].
  split; [lia|]. split; [lia|].
  destruct Ex as [->|[-> C]].
  - change (2 ^ 0) with 1. rewrite Z.div_1_r, Z.add_0_r. exact Half.
  - rewrite C in *. change (2 ^ 53 / 2 ^ 1) with (2 ^ 52).
    rewrite Z.pow_add_r by lia. change (2 ^ 1) with 2.
    change (2 ^ 53) with (2 ^ 52 * 2) in Half. nia.
Qed.

(** ** The identifiers of the mock *)

Lemma unit_interval_form (r : number) :
  unit_interval r = true ->
  (exists s, r = S754_zero s)
  \/ (exists m p, r = S754_finite false m (Zneg p)
                  /\ Zpos m < 2 ^ 53 /\ 53 <= Zpos p <= 1074).
Proof.
  intros H. destruct (unit_interval_cases r H) as [Z0|(m & e & -> & _)]; [now left|right].
  unfold unit_interval, JSNumber.leq, JSNumber.less, SFltb in H.
  cbn [valid_binary SFcompare JSNumber.lit_1] in H.
  apply andb_true_iff in H. destruct H as [H L].
  apply andb_true_iff in H. destruct H as [B _].
  apply canonical_bounded in B.
  assert (E : e <= -53).
  { destruct (Z.compare_spec e (-52)) as [E|E|E]; try discriminate; [|lia].
    subst e. exfalso.
    assert (M : Zpos m < 2 ^ 52).
    { change (2 ^ 52) with (Zpos 4503599627370496).
      destruct (Pos.compare_cont Eq m 4503599627370496) eqn:K; try discriminate.
      apply (proj1 (Pos.compare_lt_iff _ _)) in K. apply Pos2Z.pos_lt_pos in K. exact K. }
    destruct B as [[[A _] _]|[_ A]]; lia. }
  assert (C : Zpos m < 2 ^ 53 /\ -1074 <= e).
  { change (2 ^ 53) with 9007199254740992. change (2 ^ 52) with 4503599627370496 in B.
    change (2 ^ 53) with 9007199254740992 in B. destruct B as [[[A A'] [B1 B2]]|[A B1]]; lia. }
  destruct e as [|p|p]; try lia. exists m, p. split; [reflexivity|]. lia.
Qed.

(** [Math.floor(Math.random() * 1000000)] is an integer from 0 to
    999999: the product never rounds up to a million. *)
Lemma floor_million (r : number) :
  unit_interval r = true ->
  exists z, JSNumber.floor (JSNumber.mul r JSNumber.lit_1000000) = Some z
            /\ 0 <= z <= 999999.
Proof.
  intros H. destruct (unit_interval_form r H) as [[s ->]|(m & p & -> & Bm & Bp)].
  - exists 0. split; [destruct s; reflexivity|lia].
  - unfold JSNumber.mul, JSNumber.lit_1000000, SFmul. cbn [xorb].
    set (M := 8589934592000000%positive).
    replace (Zneg p + -33) with (- (Zpos p + 33)) by lia.
    set (ex := - (Zpos p + 33)).
    assert (P : 0 < 2 ^ Zpos p) by (apply Z.pow_pos_nonneg; lia).
    assert (Mp : Zpos m < 2 ^ Zpos p).
    { eapply Z.lt_le_trans; [exact Bm|]. apply Z.pow_le_mono_r; lia. }
    assert (Hmx : 2 ^ 52 <= Zpos (m * M)).
    { rewrite Pos2Z.inj_mul. subst M. change (2 ^ 52) with 4503599627370496. nia. }
    destruct (binary_round_aux_nearest (m * M) ex Hmx) as (m2 & n & -> & M0 & N1 & N2 & Half).
    cbn zeta in N1. destruct (digits2_pos_bounds (m * M)) as [DL DU].
    set (d := Zpos (digits2_pos (m * M))) in *.
    set (n1 := Z.max (d - 53) (-1074 - ex)) in *.
    rewrite Pos2Z.inj_mul in DL, DU, Half.
    assert (D1 : d <= Zpos p + 53).
    { assert (d - 1 < Zpos p + 53); [|lia]. apply (Z.pow_lt_mono_r_iff 2); [lia|lia|].
      rewrite Z.pow_add_r by lia. subst M. change (2 ^ 53) with 9007199254740992. nia. }
    assert (D2 : d <= 106).
    { assert (d - 1 < 106); [|lia]. apply (Z.pow_lt_mono_r_iff 2); [lia|lia|].
      change (2 ^ 106) with (2 ^ 53 * 2 ^ 53). subst M.
      change (2 ^ 53) with 9007199254740992 in *. nia. }
    assert (Hn1 : n1 <= 53) by (subst n1 ex; lia).
    assert (Pn1 : 2 ^ n1 <= 2 ^ 53) by (apply Z.pow_le_mono_r; lia).
    assert (En : ex + n <= -32) by (subst n1 ex; lia).
    assert (Pn : 0 < 2 ^ n) by (apply Z.pow_pos_nonneg; lia).
    assert (T : m2 * 2 ^ n < Zpos M * 2 ^ Zpos p).
    { subst M. change (2 ^ 53) with 9007199254740992 in *. nia. }
    unfold build. destruct m2 as [|q|q]; [exists 0; split; [reflexivity|lia]| |lia].
    replace (ex + n <=? JSNumber.emax - JSNumber.prec) with true
      by (symmetry; apply Z.leb_le; unfold JSNumber.emax, JSNumber.prec; lia).
    destruct (ex + n) as [|t|t] eqn:Et; try lia.
    cbn [JSNumber.floor]. eexists. split; [reflexivity|].
    assert (Pt : 0 < 2 ^ Zpos t) by (apply Z.pow_pos_nonneg; lia).
    split; [apply Z.div_pos; lia|].
    assert (Zpos q / 2 ^ Zpos t < 1000000); [|lia].
    apply Z.div_lt_upper_bound; [lia|].
    assert (Et' : Zpos t + n = Zpos p + 33) by (subst ex; lia).
    assert (S : 2 ^ Zpos t * 2 ^ n = 2 ^ 33 * 2 ^ Zpos p).
    { rewrite <- !Z.pow_add_r by lia. f_equal. lia. }
    replace (Zpos M) with (1000000 * 2 ^ 33) in T by reflexivity.
    apply Z.mul_lt_mono_pos_r with (p := 2 ^ n); [exact Pn|].
    replace (2 ^ Zpos t * 1000000 * 2 ^ n) with (1000000 * (2 ^ Zpos t * 2 ^ n)) by ring.
    rewrite S. lia.
Qed.

Lemma Number_toString_not_MOCK (z : Z) (s : string) : Number_toString z <> "MOCK-" ++ s.
Proof.
  unfold Number_toString. destruct (Z.to_int z) as [d|d]; cbn [NilEmpty.string_of_int].
  - destruct d; cbn; discriminate.
  - cbn. discriminate.
Qed.

(** X12: the id of a mock result is [PLS-MOCK-] followed by the decimal
    text of an integer from 0 to 999999 (the product of the draw and a
    million never rounds up to a million), and no result of [POST] has
    such an id: the id tells a mock verdict from the endpoint's. *)
Theorem mock_id_range (w : World) (file : File) (h : option string) :
  fair w ->
  (exists z, 0 <= z <= 999999
             /\ polarisId (fst (runState (mockVerify file h) w))
                = "PLS-MOCK-" ++ Number_toString z)
  /\ (forall request w' r,
         succeeded (fst (runState (POST request) w')) = Some r ->
         polarisId r <> polarisId (fst (runState (mockVerify file h) w))).
Proof.
  intros F. destruct (floor_million _ (F (S (draws w)))) as (z & Fl & Bz).
  assert (Id : polarisId (fst (runState (mockVerify file h) w))
               = "PLS-MOCK-" ++ Number_toString z).
  { unfold mockVerify. destruct (existsb _ _);
      cbn [bind ret Monad_state runState Math_random fst polarisId MonadState.get
           MonadState.put MonadState_state entropy draws];
      unfold mock_id; rewrite Fl; reflexivity. }
  split; [eauto|].
  intros [[f|] c] w' r; [|rewrite POST_no_file; discriminate].
  destruct (gate_rejects c (serverHash_of (bytes f))) eqn:G;
    [rewrite POST_rejected by assumption; discriminate|].
  rewrite POST_accepted by assumption. cbn [fst succeeded body NextResponse_json].
  intros [= <-]. rewrite Id. cbn [polarisId success_result].
  intros E. apply PLS_prefix_inj in E. exact (Number_toString_not_MOCK _ _ E).
Qed.

Lemma mock_id_range_witness :
  (exists z, 0 <= z <= 999999
             /\ polarisId (fst (runState (mockVerify demo None) (steady 0)))
                = "PLS-MOCK-" ++ Number_toString z)
  /\ (forall request w' r,
         succeeded (fst (runState (POST request) w')) = Some r ->
         polarisId r <> polarisId (fst (runState (mockVerify demo None) (steady 0)))).
Proof.
  apply (mock_id_range (steady 0) demo None). intros i. vm_compute. reflexivity.
Defined.
